(** * xrasterlib / terragpu: a shallow embedding of the raster wrapper and of
      the segmentation dataset, with the properties stated about them.

    Sources embedded here:
    - [src/xrasterlib/raster.py]                         (module [Xraster])
    - [src/terragpu/ai/deep_learning/datasets/segmentation_dataset.py]
                                                         (module [Terragpu])

    Conventions.
    - Python exceptions are values of [exn]; a call that can raise returns a
      [result].
    - Pixel values, scale/offset metadata and nodata values are integers
      ([Z]); floating-point rasters are outside the model.
    - An attribute that [Raster.__init__] may leave unset is an [option]
      field: [None] means that the attribute does not exist on the object,
      and reading it raises [AttributeError].  A [SegmentationDataset] is its
      attribute dictionary.
    - Libraries are modelled by what the code relies on: [xarray] arrays
      carry their band coordinates and metadata, NumPy arrays their element
      type, and the file system is explicit state.  Functions of
      [terragpu.ai.preprocessing], [glob] and the raster reader of the
      dataset are parameters. *)

From Stdlib Require Import ZArith List String Ascii Lia Bool.
From Stdlib Require Import QArith.
From stdpp Require Import base option list gmap strings pretty sorting.

Local Open Scope string_scope.
Local Open Scope Z_scope.

(** ** Python exceptions and results *)

Inductive exn : Type :=
| AssertionError (msg : string)
| RuntimeError (msg : string)
| AttributeError (attr : string)
| KeyError (key : string)
| IndexError
| TypeError
| ValueError
| RasterioIOError (path : string)
| FileNotFoundError (path : string).

Inductive result (A : Type) : Type :=
| Ok (a : A)
| Raise (e : exn).
Arguments Ok {A} a.
Arguments Raise {A} e.

#[global] Instance result_ret : MRet result := λ A a, Ok a.
#[global] Instance result_bind : MBind result := λ A B f r,
  match r with
  | Ok a => f a
  | Raise e => Raise e
  end.

#[global] Instance result_fmap : FMap result := λ A B f r,
  match r with
  | Ok a => Ok (f a)
  | Raise e => Raise e
  end.

(** [getattr o name]: read an attribute that may be unset. *)
Definition getattr {A : Type} (o : option A) (name : string) : result A :=
  match o with
  | Some a => Ok a
  | None => Raise (AttributeError name)
  end.

(** [d[key]] on a Python dict. *)
Definition getitem {A : Type} (d : gmap string A) (key : string) : result A :=
  match d !! key with
  | Some a => Ok a
  | None => Raise (KeyError key)
  end.

(** [l[0]] on a Python list. *)
Definition first {A : Type} (l : list A) : result A :=
  match l with
  | a :: _ => Ok a
  | [] => Raise IndexError
  end.

(** [l[idx]] on a Python list: a negative index counts from the end. *)
Definition list_getitem {A : Type} (l : list A) (idx : Z) : result A :=
  let n := Z.of_nat (length l) in
  let i := if idx <? 0 then n + idx else idx in
  if (0 <=? i) && (i <? n)
  then match l !! Z.to_nat i with
       | Some a => Ok a
       | None => Raise IndexError
       end
  else Raise IndexError.

(** A [for] loop whose body may raise, collecting the results. *)
Fixpoint for_each {A B : Type} (f : A → result B) (l : list A)
  : result (list B) :=
  match l with
  | [] => Ok []
  | a :: l' => b ← f a; bs ← for_each f l'; Ok (b :: bs)
  end.

Definition is_ok {A : Type} (r : result A) : bool :=
  match r with
  | Ok _ => true
  | Raise _ => false
  end.

(** ** NumPy integer element types

    [astype] converts with wrap-around, as NumPy does for integer arrays. *)

Inductive np_dtype : Type :=
| int8 | int16 | int32 | int64
| uint8 | uint16 | uint32 | uint64.

#[global] Instance np_dtype_eq_dec : EqDecision np_dtype.
Proof. solve_decision. Defined.

Definition bits (t : np_dtype) : Z :=
  match t with
  | int8 | uint8 => 8
  | int16 | uint16 => 16
  | int32 | uint32 => 32
  | int64 | uint64 => 64
  end.

Definition signed (t : np_dtype) : bool :=
  match t with
  | int8 | int16 | int32 | int64 => true
  | _ => false
  end.

Definition iinfo_min (t : np_dtype) : Z :=
  if signed t then - 2 ^ (bits t - 1) else 0.

Definition iinfo_max (t : np_dtype) : Z :=
  if signed t then 2 ^ (bits t - 1) - 1 else 2 ^ bits t - 1.

Definition astype (t : np_dtype) (v : Z) : Z :=
  let m := v mod 2 ^ bits t in
  if signed t && (2 ^ (bits t - 1) <=? m) then m - 2 ^ bits t else m.

Definition fits (t : np_dtype) (v : Z) : Prop :=
  iinfo_min t <= v <= iinfo_max t.

(** An n-dimensional NumPy integer array: element type, shape and the
    elements in row-major order. *)
Record ndarray : Type := mkArr {
  adtype : np_dtype;
  shape : list nat;
  flat : list Z
}.

(** [a.astype(t)] *)
Definition arr_astype (t : np_dtype) (a : ndarray) : ndarray :=
  {| adtype := t; shape := shape a; flat := astype t <$> flat a |}.

(** ** The raster wrapper, [src/xrasterlib/raster.py] *)

Module Xraster.

(** One band: rows (y) of pixels (x). *)
Abbreviation Band := (list (list Z)).

(** An [xarray.DataArray] with dimensions (band, y, x): every band carries
    its [band] coordinate; [attrs] is the metadata dictionary. *)
Record DataArray : Type := mkDataArray {
  layers : list (Z * Band);
  attrs : gmap string (list Z)
}.

Definition band_axis_size (d : DataArray) : nat := length (layers d).
Definition band_coords (d : DataArray) : list Z := (layers d).*1.

Definition pixel (d : DataArray) (b y x : nat) : option Z :=
  '(_, rows) ← layers d !! b; row ← rows !! y; row !! x.

(** The rasterio profile: georeferencing (opaque here), band count and
    element type. *)
Record Profile : Type := mkProfile {
  georef : string;
  count : Z;
  prof_dtype : np_dtype
}.

(** A raster on disk, as its readers see it: the profile, the pixels of
    every band (band [i] at index [i-1]), the mask of band 1
    ([read_masks(1)]: an unsigned 8-bit band, 0 where invalid) and the tags
    that [xarray] exposes as attributes ('scales', 'offsets',
    'nodatavals'). *)
Record RasterFile : Type := mkRasterFile {
  profile : Profile;
  pixels : list Band;
  mask1 : ndarray;
  tags : gmap string (list Z)
}.

(** What the program finds outside itself.
    - [files]: the regular files of the local file system that hold a
      raster.
    - [datasets]: the other names that the raster library opens and that
      [os.path.isfile] rejects: URLs, virtual paths, datasets that are
      directories.
    - [plain]: the regular files that hold no raster.
    - [encoded]: the raster that readers find where the writer stored an
      array under a profile; the conversion is the writer's own.
    - [written]: what [toraster] handed to the writer, by output path.
    Failures of the writer itself (a profile it refuses, a directory that is
    missing) are outside the model. *)
Record world : Type := mkWorld {
  files : gmap string RasterFile;
  datasets : gmap string RasterFile;
  plain : gset string;
  encoded : Profile → ndarray → RasterFile;
  written : gmap string (Profile * ndarray)
}.

(** What the raster library opens under a name. *)
Definition readable (w : world) (name : string) : option RasterFile :=
  match files w !! name with
  | Some f => Some f
  | None => datasets w !! name
  end.

(** [self.bands] is unset, [None], or a list of names. *)
Record Raster : Type := mkRaster {
  logger : option string;
  has_gpu : bool;
  data_chunks : option (Z * Z * Z);
  data : option DataArray;
  bands : option (option (list string));
  nodataval : option (list Z)
}.

Definition set_data_chunks (self : Raster) (c : Z * Z * Z) : Raster :=
  {| logger := logger self; has_gpu := has_gpu self;
     data_chunks := Some c; data := data self;
     bands := bands self; nodataval := nodataval self |}.

Definition set_nodataval (self : Raster) (n : list Z) : Raster :=
  {| logger := logger self; has_gpu := has_gpu self;
     data_chunks := data_chunks self; data := data self;
     bands := bands self; nodataval := Some n |}.

Definition set_data (self : Raster) (d : DataArray) : Raster :=
  {| logger := logger self; has_gpu := has_gpu self;
     data_chunks := data_chunks self; data := Some d;
     bands := bands self; nodataval := nodataval self |}.

Definition set_bands (self : Raster) (b : option (list string)) : Raster :=
  {| logger := logger self; has_gpu := has_gpu self;
     data_chunks := data_chunks self; data := data self;
     bands := Some b; nodataval := nodataval self |}.

(** *** preprocess *)

(** [DataArray.where(cond, other)]: keep a value where the condition holds,
    put [other] elsewhere; coordinates and attributes are kept. *)
Definition da_where (d : DataArray) (cond : Z → bool) (other : Z) : DataArray :=
  {| layers :=
       (λ l : Z * Band,
          (l.1, fmap (M := list)
                  (fmap (M := list) (λ v, if cond v then v else other)) l.2))
         <$> layers d;
     attrs := attrs d |}.

Definition ops : gmap string (Z → Z → bool) :=
  {[ "<" := Z.ltb; ">" := Z.gtb ]}.

Definition preprocess (self : Raster) (op : string) (boundary subs : Z)
  : result Raster :=
  d ← getattr (data self) "data";
  cmp ← getitem ops op;
  Ok (set_data self (da_where d (λ v, cmp v boundary) subs)).

(** *** Loading *)

(** [os.path.isfile] *)
Definition isfile (w : world) (filename : string) : bool :=
  bool_decide (is_Some (files w !! filename) ∨ filename ∈ plain w).

(** [xr.open_rasterio]: band coordinates are 1, 2, ... in file order. *)
Definition to_dataarray (f : RasterFile) : DataArray :=
  {| layers := imap (λ i b, (Z.of_nat (S i), b)) (pixels f);
     attrs := tags f |}.

Definition open_rasterio (w : world) (filename : string) : result DataArray :=
  match readable w filename with
  | Some f => Ok (to_dataarray f)
  | None => Raise (RasterioIOError filename)
  end.

Section Init.

(** Module-level flag, set when the GPU libraries import. *)
Variable HAS_GPU : bool.

Definition __init__ (w : world) (filename : option string)
    (bands : option (list string)) (chunks_band chunks_x chunks_y : Z)
    (logger : option string) : result Raster :=
  let self := {| logger := logger; has_gpu := HAS_GPU; data_chunks := None;
                 data := None; bands := None; nodataval := None |} in
  match filename with
  | None => Ok self
  | Some filename =>
      if negb (isfile w filename)
      then Raise (RuntimeError (filename ++ " does not exist"))
      else
        let self := set_data_chunks self (chunks_band, chunks_x, chunks_y) in
        d ← open_rasterio w filename;
        let self := set_data self d in
        match bands with
        | None => Raise (RuntimeError "Must specify band names.")
        | Some b =>
            let self := set_bands self (Some b) in
            nd ← getitem (attrs d) "nodatavals";
            Ok (set_nodataval self nd)
        end
  end.

End Init.

(** [bands] is declared as a list and has no default: [None] here is a call
    that leaves the argument out, which Python refuses with [TypeError]
    when it binds the arguments, before the body runs. *)
Definition readraster (self : Raster) (w : world) (filename : string)
    (bands : option (list string)) (chunks_band chunks_x chunks_y : Z)
  : result Raster :=
  match bands with
  | None => Raise TypeError
  | Some bands =>
      let self := set_data_chunks self (chunks_band, chunks_x, chunks_y) in
      d ← open_rasterio w filename;
      let self := set_data self d in
      let self := set_bands self (Some bands) in
      nd ← getitem (attrs d) "nodatavals";
      Ok (set_nodataval self nd)
  end.

(** *** Band bookkeeping *)

(** [self.bands] as a list: unset raises [AttributeError], [None] is not a
    sequence. *)
Definition bands_list (self : Raster) : result (list string) :=
  ob ← getattr (bands self) "bands";
  match ob with
  | Some l => Ok l
  | None => Raise TypeError
  end.

(** An index function: from the current array, the band names and the
    factor to the new band and its id.  Index functions are taken to
    return; one that raises aborts [addindices] with its exception. *)
Abbreviation index_fn := (DataArray → list string → Z → Band * string).

(** [xr.concat([data, band], dim='band')] after
    [band.coords['band'] = [c]]; the attributes of the first array are
    kept. *)
Definition concat (d : DataArray) (c : Z) (band : Band) : DataArray :=
  {| layers := (layers d ++ [(c, band)])%list; attrs := attrs d |}.

Definition set_attr (d : DataArray) (key : string) (v : list Z) : DataArray :=
  {| layers := layers d; attrs := <[key := v]> (attrs d) |}.

(** The loop of [addindices]: the state is ([self.data], [self.bands],
    [nbands]). *)
Fixpoint addindices_loop (indices : list index_fn) (factor : Z)
    (d : DataArray) (names : list string) (nbands : nat)
  : DataArray * list string * nat :=
  match indices with
  | [] => (d, names, nbands)
  | indices_function :: rest =>
      let nbands := S nbands in
      let '(band, bandid) := indices_function d names factor in
      let names := (names ++ [bandid])%list in
      let d := concat d (Z.of_nat nbands) band in
      addindices_loop rest factor d names nbands
  end.

Definition addindices (self : Raster) (indices : list index_fn) (factor : Z)
  : result Raster :=
  names ← bands_list self;
  d ← getattr (data self) "data";
  let '(d, names, nbands) :=
    addindices_loop indices factor d names (length names) in
  scales ← getitem (attrs d) "scales";
  s0 ← first scales;
  let d := set_attr d "scales" (replicate nbands s0) in
  offsets ← getitem (attrs d) "offsets";
  o0 ← first offsets;
  let d := set_attr d "offsets" (replicate nbands o0) in
  Ok (set_bands (set_data self d) (Some names)).

(** [list.index]: position of the first occurrence. *)
Fixpoint index (l : list string) (x : string) : result nat :=
  match l with
  | [] => Raise ValueError
  | y :: l' => if decide (y = x) then Ok 0%nat else S <$> index l' x
  end.

(** [DataArray.drop(dim='band', labels=..., drop=True)]: removal by
    coordinate label, every band whose coordinate is among the labels; a
    label that is not a coordinate raises [KeyError].  The extra keyword is
    without effect. *)
Definition da_drop (d : DataArray) (labels : list Z) : result DataArray :=
  if bool_decide (Forall (λ c, c ∈ band_coords d) labels)
  then Ok {| layers := filter (λ l, l.1 ∉ labels) (layers d);
             attrs := attrs d |}
  else Raise (KeyError "band").

Definition dropindices (self : Raster) (dropindices : list string)
  : result Raster :=
  _ ← for_each (λ band,
         names ← bands_list self;
         if bool_decide (band ∈ names) then Ok ()
         else Raise (AssertionError "Specified band not in raster."))
       dropindices;
  dropind ← for_each (λ ind_id,
         names ← bands_list self;
         i ← index names ind_id;
         Ok (Z.of_nat i + 1))
       dropindices;
  d ← getattr (data self) "data";
  d ← da_drop d dropind;
  let self := set_data self d in
  names ← bands_list self;
  Ok (set_bands self
        (Some (filter (λ band, band ∉ dropindices) names))).

(** *** Export *)

Definition rio_open (w : world) (rast : string) : result RasterFile :=
  match readable w rast with
  | Some f => Ok f
  | None => Raise (RasterioIOError rast)
  end.

(** [rio.open(output, 'w', **meta)] followed by [dst.write(a, 1)]: from then
    on [output] opens as the raster the writer made, whatever was there
    before.  A name that so far was a dataset and no regular file stays
    one; any other name is a regular file afterwards. *)
Definition rio_write (w : world) (output : string) (meta : Profile)
    (a : ndarray) : world :=
  let f := encoded w meta a in
  let stays_dataset :=
    bool_decide (files w !! output = None ∧ is_Some (datasets w !! output)) in
  {| files := if stays_dataset then files w else <[output := f]> (files w);
     datasets := if stays_dataset then <[output := f]> (datasets w)
                 else datasets w;
     plain := plain w ∖ {[ output ]};
     encoded := encoded w;
     written := <[output := (meta, a)]> (written w) |}.

(** [a[a == v] = x]: the value is stored in the element type of [a]. *)
Definition setitem_eq (a : ndarray) (v x : Z) : ndarray :=
  {| adtype := adtype a; shape := shape a;
     flat := (λ e, if e =? v then astype (adtype a) x else e) <$> flat a |}.

(** [p[src == v] = src[src == v]], element by element. *)
Fixpoint assign_where (t : np_dtype) (v : Z) (p src : list Z) : list Z :=
  match p, src with
  | e :: p', s :: src' =>
      (if s =? v then astype t s else e) :: assign_where t v p' src'
  | _, _ => p
  end.

(** A boolean index must have the shape of the indexed array. *)
Definition setitem_from (p src : ndarray) (v : Z) : result ndarray :=
  if decide (shape p = shape src)
  then Ok {| adtype := adtype p; shape := shape p;
             flat := assign_where (adtype p) v (flat p) (flat src) |}
  else Raise IndexError.

(** [prediction] is a reference into the store of arrays [h]: the caller
    keeps the same reference, and sees what [toraster] stores there.  The
    array handed to [dst.write] is recorded under [output] with the profile
    the file was opened with, and [output] reads as the writer's raster
    from then on. *)
Definition toraster (self : Raster) (h : gmap nat ndarray) (w : world)
    (rast : string) (prediction : nat) (dtype : np_dtype) (output : string)
  : result (gmap nat ndarray * world) :=
  src ← rio_open w rast;
  let meta := profile src in
  let nodatavals := arr_astype dtype (mask1 src) in
  nd ← (l ← getattr (nodataval self) "nodataval"; first l);
  let nodatavals := setitem_eq nodatavals 0 nd in
  p ← match h !! prediction with
      | Some p => Ok p
      | None => Raise TypeError
      end;
  p ← setitem_from p nodatavals nd;
  let h := <[prediction := p]> h in
  let out_meta := {| georef := georef meta; count := 1;
                     prof_dtype := dtype |} in
  Ok (h, rio_write w output out_meta p).

(** *** Vocabulary of the statements *)

(** The comparison that [op] names holds between [v] and [boundary]. *)
Definition satisfies (op : string) (v boundary : Z) : Prop :=
  (op = "<" ∧ v < boundary) ∨ (op = ">" ∧ v > boundary).

(** A raster holding [d] under the names [names]. *)
Definition raster_of (d : DataArray) (names : list string) (nd : list Z)
  : Raster :=
  {| logger := None; has_gpu := false; data_chunks := Some (1, 2048, 2048);
     data := Some d; bands := Some (Some names); nodataval := Some nd |}.

(** The mask after [nodatavals[nodatavals == 0] = nd]. *)
Definition substituted (dtype : np_dtype) (nd : Z) (mask : ndarray) : ndarray :=
  setitem_eq (arr_astype dtype mask) 0 nd.

(** The profile that [toraster] writes with. *)
Definition out_profile (src : RasterFile) (dtype : np_dtype) : Profile :=
  {| georef := georef (profile src); count := 1; prof_dtype := dtype |}.

(** [Raster()] *)
Definition empty_raster : Raster :=
  {| logger := None; has_gpu := false; data_chunks := None; data := None;
     bands := None; nodataval := None |}.

(** A file of three bands of one pixel each, whose only pixel is valid. *)
Definition three_band_file : RasterFile :=
  {| profile := {| georef := "EPSG:4326"; count := 3; prof_dtype := int16 |};
     pixels := [[[10]]; [[20]]; [[30]]];
     mask1 := {| adtype := uint8; shape := [1; 1]%nat; flat := [255] |};
     tags := {[ "scales" := [1; 1; 1]; "offsets" := [0; 0; 0];
                "nodatavals" := [-9999; -9999; -9999] ]} |}.

(** A one-band file of two pixels with the given mask. *)
Definition reference_file (mask : list Z) : RasterFile :=
  {| profile := {| georef := "EPSG:4326"; count := 1; prof_dtype := uint8 |};
     pixels := [[[10; 20]]];
     mask1 := {| adtype := uint8; shape := [1; 2]%nat; flat := mask |};
     tags := {[ "scales" := [1]; "offsets" := [0]; "nodatavals" := [255] ]} |}.

(** A writer that stores the array as the only band, every pixel valid. *)
Definition plain_writer (meta : Profile) (a : ndarray) : RasterFile :=
  {| profile := meta;
     pixels := [[flat a]];
     mask1 := {| adtype := uint8; shape := shape a;
                 flat := (λ _, 255) <$> flat a |};
     tags := {[ "scales" := [1]; "offsets" := [0] ]} |}.

(** Three rasters in regular files, one raster behind a URL and one text
    file. *)
Definition disk : world :=
  {| files := {[ "scene.tif" := three_band_file;
                 "valid.tif" := reference_file [255; 255];
                 "edge.tif" := reference_file [0; 255] ]};
     datasets := {[ "https://host/scene.tif" := three_band_file ]};
     plain := {[ "notes.txt" ]};
     encoded := plain_writer;
     written := ∅ |}.

(** A prediction buffer of two pixels. *)
Definition buffer (v0 v1 : Z) : ndarray :=
  {| adtype := int16; shape := [1; 2]%nat; flat := [v0; v1] |}.

(** Two bands of one pixel each, with the metadata of a two-band file. *)
Definition two_band : DataArray :=
  {| layers := [(1, [[10]]); (2, [[20]])];
     attrs := {[ "scales" := [1; 1]; "offsets" := [0; 0];
                 "nodatavals" := [-9999; -9999] ]} |}.

(** An index function: the first band scaled by the factor. *)
Definition first_band_index : index_fn := λ d names factor,
  (match layers d with
   | (_, b) :: _ => fmap (M := list) (fmap (M := list) (Z.mul factor)) b
   | [] => []
   end, "FB").

(** One band holding the single row [-1, 0, 1, 2]. *)
Definition row_example : DataArray :=
  {| layers := [(1, [[-1; 0; 1; 2]])];
     attrs := {[ "scales" := [1]; "offsets" := [0]; "nodatavals" := [-9999] ]} |}.

End Xraster.

(** ** The segmentation dataset,
       [src/terragpu/ai/deep_learning/datasets/segmentation_dataset.py] *)

Module Terragpu.

(** The part of the file system this class writes and lists: for every
    directory that holds arrays or that the program made, the arrays stored
    in it by entry name.  A directory above one of those exists as well,
    though the map has no listing for it (see [isdir]).
    [xp.save(os.path.join(dir, name), a)] is [save dir name a].
    Permissions, and a regular file standing where a directory is asked
    for, are outside the model: [os.makedirs] does not raise here. *)
Abbreviation filesystem := (gmap string (gmap string ndarray)).

(** Code that reads and writes the file system and may raise: the file
    system after the call is returned in both cases. *)
Definition io (A : Type) : Type := filesystem → filesystem * result A.

#[global] Instance io_ret : MRet io := λ A a fs, (fs, Ok a).
#[global] Instance io_bind : MBind io := λ A B f m fs,
  match m fs with
  | (fs', Ok a) => f a fs'
  | (fs', Raise e) => (fs', Raise e)
  end.

Definition lift {A : Type} (r : result A) : io A := λ fs, (fs, r).

Fixpoint for_io {A : Type} (f : A → io unit) (l : list A) : io unit :=
  match l with
  | [] => mret ()
  | a :: l' => _ ← f a; for_io f l'
  end.

(** *** Paths and the file system *)

Fixpoint endswith_sep (s : string) : bool :=
  match s with
  | EmptyString => false
  | String c EmptyString => bool_decide (c = "/"%char)
  | String _ s' => endswith_sep s'
  end.

(** [os.path.join(a, b)] *)
Definition join (a b : string) : string :=
  if String.prefix "/" b then b
  else if bool_decide (a = "") || endswith_sep a then a +:+ b
  else a +:+ "/" +:+ b.

Fixpoint all_sep (s : string) : bool :=
  match s with
  | EmptyString => true
  | String c rest => bool_decide (c = "/"%char) && all_sep rest
  end.

(** The directories above [path], outermost first: its prefixes that end
    where a separator and a further component follow.  The root is left
    out, it always exists.  [acc] is the part of the path already read. *)
Fixpoint ancestors_from (acc path : string) : list string :=
  match path with
  | EmptyString => []
  | String c rest =>
      (if bool_decide (c = "/"%char) && negb (bool_decide (acc = ""))
          && negb (endswith_sep acc) && negb (all_sep rest)
       then [acc] else [])
      ++ ancestors_from (acc +:+ String c EmptyString) rest
  end.

Definition ancestors (path : string) : list string := ancestors_from "" path.

(** [os.path.isdir]: the directory has a listing in the map, or lies above
    a directory that has one. *)
Definition isdir (fs : filesystem) (path : string) : bool :=
  bool_decide (Exists (λ q, q = path ∨ path ∈ ancestors q)
                 (elements (dom fs))).

(** [os.mkdir] of a directory unless it is there. *)
Definition mkdir_missing (fs : filesystem) (path : string) : filesystem :=
  if isdir fs path then fs else <[path := ∅]> fs.

(** [os.makedirs(path, exist_ok=True)]: every directory above [path] that
    is missing is made, outermost first, and then [path] itself, unless it
    is there already. *)
Definition makedirs (path : string) : io unit := λ fs,
  let fs := foldl mkdir_missing fs (ancestors path) in
  match fs !! path with
  | Some _ => (fs, Ok ())
  | None => (<[path := ∅]> fs, Ok ())
  end.

(** [os.listdir(path)]: the entry names, in an order of the system's
    choosing. *)
Definition listdir (path : string) : io (list string) := λ fs,
  match fs !! path with
  | Some d => (fs, Ok (elements (dom d)))
  | None => (fs, Raise (FileNotFoundError path))
  end.

Definition save (dir name : string) (a : ndarray) : io unit := λ fs,
  match fs !! dir with
  | Some d => (<[dir := <[name := a]> d]> fs, Ok ())
  | None => (fs, Raise (FileNotFoundError (join dir name)))
  end.

(** [xp.load(path)]: the array stored under the entry whose joined path is
    [path]. *)
Definition load (path : string) : io ndarray := λ fs,
  match
    '(d, m) ← map_to_list fs;
    '(n, a) ← map_to_list m;
    if decide (join d n = path) then [a] else []
  with
  | a :: _ => (fs, Ok a)
  | [] => (fs, Raise (FileNotFoundError path))
  end.

(** *** Values held by the attributes of the object *)

Inductive tensor_kind : Type := FloatTensor | LongTensor.

(** A framework tensor; elements are exact rationals, rounding to the
    tensor's precision is not modelled. *)
Record tensor : Type := mkTensor {
  kind : tensor_kind;
  tshape : list nat;
  tdata : list Q
}.

(** An array after loading (integers) or after a division (floats). *)
Inductive array : Type :=
| IntArray (a : ndarray)
| FloatArray (sh : list nat) (data : list Q).

(** [max_patches]: a count, or a fraction [num/den] of the possible
    tiles. *)
Inductive patches : Type :=
| Count (n : nat)
| Fraction (num den : nat).

Inductive pyval : Type :=
| VNone
| VBool (b : bool)
| VNat (n : nat)
| VFloat (q : Q)
| VStr (s : string)
| VStrs (l : list string)
| VPatches (p : patches)
| VRecords (l : list (gmap string string))
| VTransform (f : tensor → tensor → tensor * tensor).

(** The instance: its attribute dictionary. *)
Abbreviation object := (gmap string pyval).

Definition attr_str (self : object) (name : string) : result string :=
  match self !! name with
  | Some (VStr s) => Ok s
  | Some _ => Raise TypeError
  | None => Raise (AttributeError name)
  end.

Definition attr_strs (self : object) (name : string) : result (list string) :=
  match self !! name with
  | Some (VStrs l) => Ok l
  | Some _ => Raise TypeError
  | None => Raise (AttributeError name)
  end.

Definition attr_bool (self : object) (name : string) : result bool :=
  match self !! name with
  | Some (VBool b) => Ok b
  | Some _ => Raise TypeError
  | None => Raise (AttributeError name)
  end.

Definition attr_nat (self : object) (name : string) : result nat :=
  match self !! name with
  | Some (VNat n) => Ok n
  | Some _ => Raise TypeError
  | None => Raise (AttributeError name)
  end.

Definition attr_patches (self : object) (name : string) : result patches :=
  match self !! name with
  | Some (VPatches p) => Ok p
  | Some _ => Raise TypeError
  | None => Raise (AttributeError name)
  end.

Definition attr_records (self : object) (name : string)
  : result (list (gmap string string)) :=
  match self !! name with
  | Some (VRecords l) => Ok l
  | Some _ => Raise TypeError
  | None => Raise (AttributeError name)
  end.

(** *** Array operations *)

Definition product (l : list nat) : nat := foldr Nat.mul 1%nat l.

(** The elements of a [r] x [c] matrix stored row-major, read column by
    column. *)
Definition transpose_flat {A : Type} (r c : nat) (l : list A) : list A :=
  j ← seq 0 c; omap (λ i, l !! (i * c + j)%nat) (seq 0 r).

(** [xp.moveaxis(a, 0, -1)] *)
Definition moveaxis_0_last (a : ndarray) : result ndarray :=
  match shape a with
  | [] => Raise ValueError
  | s0 :: rest =>
      Ok {| adtype := adtype a; shape := (rest ++ [s0])%list;
            flat := transpose_flat s0 (product rest) (flat a) |}
  end.

(** [a.transpose((2, 0, 1))] *)
Definition transpose_201 (a : ndarray) : result ndarray :=
  match shape a with
  | [h; w; c] =>
      Ok {| adtype := adtype a; shape := [c; h; w];
            flat := transpose_flat (h * w) c (flat a) |}
  | _ => Raise ValueError
  end.

(** [xp.squeeze(a)] *)
Definition squeeze (a : ndarray) : ndarray :=
  {| adtype := adtype a; shape := filter (λ n, n ≠ 1%nat) (shape a);
     flat := flat a |}.

(** [xp.expand_dims(a, 0)] *)
Definition expand_dims_0 (a : ndarray) : ndarray :=
  {| adtype := adtype a; shape := 1%nat :: shape a; flat := flat a |}.

(** [a / xp.iinfo(a.dtype).max] *)
Definition div_iinfo_max (a : ndarray) : array :=
  FloatArray (shape a)
    ((λ v, inject_Z v / inject_Z (iinfo_max (adtype a)))%Q <$> flat a).

(** [from_dlpack(a.toDlpack()).float()] *)
Definition to_float_tensor (a : array) : tensor :=
  match a with
  | IntArray a =>
      {| kind := FloatTensor; tshape := shape a; tdata := inject_Z <$> flat a |}
  | FloatArray sh data =>
      {| kind := FloatTensor; tshape := sh; tdata := data |}
  end.

(** [from_dlpack(a.toDlpack()).long()] *)
Definition to_long_tensor (a : ndarray) : tensor :=
  {| kind := LongTensor; tshape := shape a;
     tdata := (λ v, inject_Z (astype int64 v)) <$> flat a |}.

(** The window of [ts] rows and [ts] columns with top-left corner
    ([r], [c]) over the two leading axes. *)
Definition crop (a : ndarray) (r c ts : nat) : ndarray :=
  match shape a with
  | h :: w :: rest =>
      let k := product rest in
      {| adtype := adtype a; shape := ts :: ts :: rest;
         flat := i ← seq 0 ts;
                 take (ts * k) (drop (((r + i) * w + c) * k) (flat a)) |}
  | _ => a
  end.

(** Number of top-left corners at which a [ts] x [ts] window lies inside the
    two leading axes. *)
Definition n_positions (a : ndarray) (ts : nat) : nat :=
  match shape a with
  | h :: w :: _ =>
      if (ts <=? h)%nat && (ts <=? w)%nat
      then ((h - ts + 1) * (w - ts + 1))%nat
      else 0%nat
  | _ => 0%nat
  end.

(** The number of tiles that [max_patches] asks for: the count itself, or
    the fraction of the [total] possible tiles. *)
Definition n_patches (max_patches : patches) (total : nat) : nat :=
  match max_patches with
  | Count n => n
  | Fraction num den => (num * total / den)%nat
  end.

(** Modelled from the spec: [gen_random_tiles] of
    [terragpu.ai.preprocessing] is not among the sources.  The spec has it
    extract random tiles of [tile_size] x [tile_size], as many as
    [max_patches] says ([max_patches=5] over one pair yields exactly 5 tile
    files), [max_patches] being a count or a fraction of the total possible
    tiles, at random top-left offsets within valid bounds, the image tile
    and the label tile sharing the same pixel window.  [rng] is the
    sequence of random draws.  What a tile holds where no window fits the
    scene the spec does not say, and no statement here depends on it. *)
Definition gen_random_tiles (rng : nat → nat * nat) (image label : ndarray)
    (tile_size : nat) (max_patches : patches)
  : list ndarray * list ndarray :=
  let h := default 0%nat (shape image !! 0%nat) in
  let w := default 0%nat (shape image !! 1%nat) in
  let offsets :=
    (λ i, ((rng i).1 `mod` (h - tile_size + 1),
           (rng i).2 `mod` (w - tile_size + 1))%nat)
      <$> seq 0 (n_patches max_patches (n_positions image tile_size)) in
  ((λ o, crop image o.1 o.2 tile_size) <$> offsets,
   (λ o, crop label o.1 o.2 tile_size) <$> offsets).

(** *** File names *)

(** The parts of a path between its separators. *)
Fixpoint split_sep (path : string) : list string :=
  match path with
  | EmptyString => [EmptyString]
  | String c rest =>
      if bool_decide (c = "/"%char) then EmptyString :: split_sep rest
      else match split_sep rest with
           | x :: xs => String c x :: xs
           | [] => [String c EmptyString]
           end
  end.

(** [Path(path).name]: the last component; [pathlib] drops empty
    components and ['.'] components when it parses the path. *)
Definition name_of (path : string) : string :=
  default "" (last (filter (λ x, x ≠ "" ∧ x ≠ ".") (split_sep path))).

(** [name[:i]] for the last ['.'] at [i], when [0 < i < len(name) - 1]. *)
Fixpoint cut_suffix (first : bool) (name : string) : string :=
  match name with
  | EmptyString => EmptyString
  | String c rest =>
      if bool_decide (c = "."%char) && negb first
         && negb (bool_decide (rest = ""))
         && negb (bool_decide ("."%char ∈ String.list_ascii_of_string rest))
      then EmptyString
      else String c (cut_suffix false rest)
  end.

(** [Path(path).stem] *)
Definition stem (path : string) : string := cut_suffix true (name_of path).

(** [f'{filename}_{id}.npy'] *)
Definition tile_name (filename : string) (id : nat) : string :=
  filename +:+ "_" +:+ pretty id +:+ ".npy".

(** [sorted(l)] on strings. *)
Definition sorted (l : list string) : list string := merge_sort String.le l.

(** [zip(sorted(images), sorted(labels))] *)
Definition pair_files (images labels : list string) : list (string * string) :=
  zip (sorted images) (sorted labels).

(** *** The class *)

(** The arguments of [__init__]. *)
Record init_args : Type := mkArgs {
  input_bands : list string;
  output_bands : list string;
  tile_size : nat;
  max_patches : patches;
  dataset_dir : option string;
  generate_dataset : bool;
  images_regex : option string;
  labels_regex : option string;
  transform : pyval;
  test_size : Q;
  invert : bool;
  normalize : bool;
  standardize : bool
}.

Definition default_args : init_args :=
  {| input_bands := ["CB"; "B"; "G"; "Y"; "R"; "RE"; "N1"; "N2"];
     output_bands := ["B"; "G"; "R"];
     tile_size := 256; max_patches := Count 100;
     dataset_dir := None; generate_dataset := false;
     images_regex := None; labels_regex := None;
     transform := VBool false; test_size := (20 # 100)%Q;
     invert := true; normalize := false; standardize := false |}.

(** Truth value of an attribute in a condition. *)
Definition truthy (v : pyval) : bool :=
  match v with
  | VNone => false
  | VBool b => b
  | VNat n => negb (n =? 0)%nat
  | VFloat q => negb (Qeq_bool q 0)
  | VStr s => negb (bool_decide (s = ""))
  | VStrs l => negb (bool_decide (l = []))
  | VPatches (Count n) => negb (n =? 0)%nat
  | VPatches (Fraction num _) => negb (num =? 0)%nat
  | VRecords l => negb (bool_decide (length l = 0%nat))
  | VTransform _ => true
  end.

Section Dataset.

(** [glob(pattern)]: the matching paths, in an order of the system's
    choosing. *)
Variable glob : string → list string.

(** [rxr.open_rasterio(path, chunks=CHUNKS)], as the array of its values
    (band, y, x). *)
Variable open_rasterio : string → result ndarray.

(** [modify_bands] and [standardize_local] of [terragpu.ai.preprocessing],
    which is not among the sources. *)
Variable modify_bands : ndarray → list string → list string → result ndarray.
Variable standardize_local : array → array.

(** The random draws of the tiler. *)
Variable rng : nat → nat * nat.

Definition __len__ (self : object) : result nat :=
  length <$> attr_records self "data_filenames".

Definition get_filenames (self : object)
  : io (list (gmap string string)) :=
  images_dir ← lift (attr_str self "images_dir");
  names ← listdir images_dir;
  lift (for_each (λ i,
          images_dir ← attr_str self "images_dir";
          labels_dir ← attr_str self "labels_dir";
          Ok ({[ "image" := join images_dir i;
                 "label" := join labels_dir i ]} : gmap string string))
        names).

Definition open_image (self : object) (idx : Z) : io tensor :=
  files ← lift (attr_records self "files");
  record ← lift (list_getitem files idx);
  path ← lift (getitem record "image");
  image ← load path;
  invert ← lift (attr_bool self "invert");
  image ← lift (if invert : bool then transpose_201 image else Ok image);
  normalize ← lift (attr_bool self "normalize");
  let image := if normalize : bool then div_iinfo_max image
               else IntArray image in
  standardize ← lift (attr_bool self "standardize");
  let image := if standardize : bool then standardize_local image
               else image in
  mret (to_float_tensor image).

Definition open_mask (self : object) (idx : Z) (add_dims : bool) : io tensor :=
  files ← lift (attr_records self "files");
  record ← lift (list_getitem files idx);
  path ← lift (getitem record "label");
  mask ← load path;
  let mask := if add_dims then expand_dims_0 mask else mask in
  mret (to_long_tensor mask).

Definition __getitem__ (self : object) (idx : Z) : io (tensor * tensor) :=
  x ← open_image self idx;
  y ← open_mask self idx false;
  t ← lift (match self !! "transform" with
            | Some t => Ok t
            | None => Raise (AttributeError "transform")
            end);
  if truthy t
  then match t with
       | VTransform f => mret (f x y)
       | _ => lift (Raise TypeError)
       end
  else mret (x, y).

(** The body of the loop of [gen_dataset] over the tile indices. *)
Definition save_tiles (images_dir labels_dir filename : string)
    (image_tiles label_tiles : list ndarray) : io unit :=
  for_io (λ id,
      image_tile ← lift (list_getitem image_tiles (Z.of_nat id));
      _ ← save images_dir (tile_name filename id) image_tile;
      label_tile ← lift (list_getitem label_tiles (Z.of_nat id));
      save labels_dir (tile_name filename id) label_tile)
    (seq 0 (length image_tiles)).

(** The body of the loop of [gen_dataset] over the paired files. *)
Definition process_scene (self : object) (image label : string) : io unit :=
  let filename := stem image in
  image ← lift (open_rasterio image);
  label ← lift (open_rasterio label);
  input_bands ← lift (attr_strs self "input_bands");
  output_bands ← lift (attr_strs self "output_bands");
  image ← lift (modify_bands image input_bands output_bands);
  image ← lift (arr_astype int16 <$> moveaxis_0_last image);
  let label := if decide (length (shape label) ≠ 2%nat) then squeeze label
               else label in
  tile_size ← lift (attr_nat self "tile_size");
  max_patches ← lift (attr_patches self "max_patches");
  let '(image_tiles, label_tiles) :=
    gen_random_tiles rng image label tile_size max_patches in
  images_dir ← lift (attr_str self "images_dir");
  labels_dir ← lift (attr_str self "labels_dir");
  save_tiles images_dir labels_dir filename image_tiles label_tiles.

(** The tiles of one scene: the steps of [process_scene] before the
    first write. *)
Definition scene_tiles (self : object) (image label : string)
  : result (list ndarray * list ndarray) :=
  image ← open_rasterio image;
  label ← open_rasterio label;
  input_bands ← attr_strs self "input_bands";
  output_bands ← attr_strs self "output_bands";
  image ← modify_bands image input_bands output_bands;
  image ← arr_astype int16 <$> moveaxis_0_last image;
  let label := if decide (length (shape label) ≠ 2%nat) then squeeze label
               else label in
  tile_size ← attr_nat self "tile_size";
  max_patches ← attr_patches self "max_patches";
  Ok (gen_random_tiles rng image label tile_size max_patches).

Definition gen_dataset (self : object) : io unit :=
  images_regex ← lift (attr_str self "images_regex");
  let images_list := sorted (glob images_regex) in
  labels_regex ← lift (attr_str self "labels_regex");
  let labels_list := sorted (glob labels_regex) in
  for_io (λ '(image, label), process_scene self image label)
    (zip images_list labels_list).

Definition __init__ (a : init_args) : io object :=
  let self : object := ∅ in
  let self := <["input_bands" := VStrs (input_bands a)]> self in
  let self := <["output_bands" := VStrs (output_bands a)]> self in
  let self := <["tile_size" := VNat (tile_size a)]> self in
  let self := <["max_patches" := VPatches (max_patches a)]> self in
  let self := <["test_size" := VFloat (test_size a)]> self in
  let self := <["invert" := VBool (invert a)]> self in
  let self := <["normalize" := VBool (normalize a)]> self in
  let self := <["standardize" := VBool (standardize a)]> self in
  match dataset_dir a with
  | None =>
      lift (Raise (AssertionError "dataset_dir=None should be defined."))
  | Some dataset_dir =>
      let self := <["dataset_dir" := VStr dataset_dir]> self in
      let images_dir := join dataset_dir "images" in
      let labels_dir := join dataset_dir "labels" in
      let self := <["images_dir" := VStr images_dir]> self in
      let self := <["labels_dir" := VStr labels_dir]> self in
      _ ← makedirs images_dir;
      _ ← makedirs labels_dir;
      let self := <["generate_dataset" := VBool (generate_dataset a)]> self in
      self ←
        (if generate_dataset a
         then
           match images_regex a with
           | None =>
               lift (Raise (AssertionError
                 "images_regex should be defined with generate_dataset=True."))
           | Some images_regex =>
               match labels_regex a with
               | None =>
                   lift (Raise (AssertionError
                     "labels_regex should be defined with generate_dataset=True."))
               | Some labels_regex =>
                   let self := <["images_regex" := VStr images_regex]> self in
                   let self := <["labels_regex" := VStr labels_regex]> self in
                   _ ← gen_dataset self;
                   mret self
               end
           end
         else mret self);
      names ← listdir images_dir;
      if (0 <? length names)%nat
      then
        data_filenames ← get_filenames self;
        let self := <["data_filenames" := VRecords data_filenames]> self in
        let self := <["transform" := transform a]> self in
        mret self
      else
        lift (Raise (AssertionError
          (images_dir +:+ " is empty. Make sure generate_dataset=True.")))
  end.

End Dataset.

(** *** Vocabulary of the statements *)

(** The label as the tiler receives it. *)
Definition prepared_label (label : ndarray) : ndarray :=
  if decide (length (shape label) ≠ 2%nat) then squeeze label else label.

(** The directory [m] after the tiles [tiles] have been saved under the
    names of the indices [start], [start + 1], ... *)
Fixpoint add_tiles (filename : string) (start : nat) (tiles : list ndarray)
    (m : gmap string ndarray) : gmap string ndarray :=
  match tiles with
  | [] => m
  | t :: tiles' =>
      add_tiles filename (S start) tiles' (<[tile_name filename start := t]> m)
  end.

(** The attributes that [gen_dataset] reads. *)
Definition ex_self (tile_size : nat) (max_patches : patches) : object :=
  {[ "input_bands" := VStrs ["R"]; "output_bands" := VStrs ["R"];
     "tile_size" := VNat tile_size; "max_patches" := VPatches max_patches;
     "images_dir" := VStr "d/images"; "labels_dir" := VStr "d/labels";
     "images_regex" := VStr "one/*.tif";
     "labels_regex" := VStr "one/*.tif" ]}.

(** *** Data of the examples *)

(** Two scenes and two label files whose names match one scene only. *)
Definition ex_glob (pattern : string) : list string :=
  if decide (pattern = "img/*.tif") then ["img/b.tif"; "img/a.tif"]
  else if decide (pattern = "lbl/*.tif") then ["lbl/c.tif"; "lbl/b.tif"]
  else if decide (pattern = "one/*.tif") then ["one/scene.tif"]
  else [].

(** A raster of [bands] bands of [h] rows and [w] columns, all zero. *)
Definition blank (bands h w : nat) : ndarray :=
  {| adtype := int16; shape := [bands; h; w];
     flat := replicate (bands * h * w) 0 |}.

(** Every path opens as a one-band raster of 3 x 4 pixels. *)
Definition ex_open (path : string) : result ndarray := Ok (blank 1 3 4).

Definition ex_modify_bands (a : ndarray) (input output : list string)
  : result ndarray := Ok a.

Definition ex_standardize (a : array) : array := a.

Definition ex_rng (i : nat) : nat * nat := (i, (2 * i)%nat).

(** Arguments that open an existing dataset directory. *)
Definition ex_args : init_args :=
  {| input_bands := ["R"]; output_bands := ["R"]; tile_size := 2;
     max_patches := Count 5; dataset_dir := Some "d";
     generate_dataset := false; images_regex := None;
     labels_regex := None; transform := VBool false;
     test_size := (20 # 100)%Q; invert := true; normalize := false;
     standardize := false |}.

(** A dataset directory that already holds one tile pair. *)
Definition ex_tiles : filesystem :=
  {[ "d/images" := {[ "scene_0.npy" := blank 2 2 1 ]};
     "d/labels" := {[ "scene_0.npy" := blank 1 2 2 ]} ]}.

End Terragpu.

(** * Properties of the raster wrapper *)

Module XrasterFacts.
Import Xraster.

Lemma ops_lookup op :
  op = "<" ∨ op = ">" →
  ∃ cmp, getitem ops op = Ok cmp ∧
         ∀ v boundary, cmp v boundary = true ↔ satisfies op v boundary.
Proof.
  intros [-> | ->].
  - exists Z.ltb. split; [reflexivity|].
    intros v b. unfold satisfies. rewrite Z.ltb_lt.
    split; [auto|]. intros [[_ ?]|[? _]]; [done|discriminate].
  - exists Z.gtb. split; [reflexivity|].
    intros v b. unfold satisfies. rewrite Z.gtb_gt.
    split; [auto|]. intros [[? _]|[_ ?]]; [discriminate|done].
Qed.

Lemma pixel_where d cond other b y x :
  pixel (da_where d cond other) b y x
  = (λ v, if cond v then v else other) <$> pixel d b y x.
Proof.
  unfold pixel, da_where; simpl.
  rewrite list_lookup_fmap.
  destruct (layers d !! b) as [[c rws]|]; simpl; [|done].
  rewrite list_lookup_fmap.
  destruct (rws !! y) as [row|]; simpl; [|done].
  by rewrite list_lookup_fmap.
Qed.

(** C4. [preprocess] with [op] one of '<' and '>' rebinds [self.data] to the
    array in which every element that satisfies the comparison against
    [boundary] is kept and every other element is [subs]; band coordinates,
    metadata and the other attributes of the raster are untouched.  On the
    values [-1, 0, 1, 2] with [op = '>'], [boundary = 0], [subs = 0] the
    result is [0, 0, 1, 2]. *)
Theorem preprocess_spec :
  (∀ (self : Raster) (d : DataArray) (op : string) (boundary subs : Z),
     data self = Some d →
     op = "<" ∨ op = ">" →
     ∃ d', preprocess self op boundary subs = Ok (set_data self d') ∧
           band_coords d' = band_coords d ∧
           attrs d' = attrs d ∧
           ∀ b y x,
             match pixel d b y x with
             | Some v =>
                 (satisfies op v boundary → pixel d' b y x = Some v) ∧
                 (¬ satisfies op v boundary → pixel d' b y x = Some subs)
             | None => pixel d' b y x = None
             end) ∧
  (∀ names nd,
     preprocess (raster_of row_example names nd) ">" 0 0
     = Ok (raster_of {| layers := [(1, [[0; 0; 1; 2]])];
                        attrs := attrs row_example |} names nd)).
Proof.
  split; [|reflexivity].
  intros self d op boundary subs Hd Hop.
  destruct (ops_lookup op Hop) as (cmp & Hcmp & Hsat).
  exists (da_where d (λ v, cmp v boundary) subs).
  unfold preprocess. rewrite Hd; simpl. rewrite Hcmp; simpl.
  split; [done|]. split.
  { unfold band_coords, da_where; simpl.
    rewrite <- list_fmap_compose. by apply list_fmap_ext. }
  split; [done|].
  intros b y x. rewrite pixel_where.
  destruct (pixel d b y x) as [v|]; simpl; [|done].
  specialize (Hsat v boundary).
  destruct (cmp v boundary); split; intros Hs; try done.
  - destruct Hs. by apply Hsat.
  - apply Hsat in Hs. discriminate.
Qed.

Lemma preprocess_spec_witness :
  ∃ d', preprocess (raster_of row_example ["Red"] [-9999]) "<" 1 7
        = Ok (set_data (raster_of row_example ["Red"] [-9999]) d') ∧
        pixel d' 0 0 3 = Some 7.
Proof.
  destruct (proj1 preprocess_spec (raster_of row_example ["Red"] [-9999])
              row_example "<" 1 7 eq_refl (or_introl eq_refl))
    as (d' & Hrun & _ & _ & Hpx).
  exists d'. split; [exact Hrun|].
  specialize (Hpx 0%nat 0%nat 3%nat). simpl in Hpx.
  apply Hpx. unfold satisfies. intros [[_ ?]|[? _]]; [lia|discriminate].
Defined.

(** *** addindices *)

Lemma addindices_loop_app l1 l2 factor d names n :
  addindices_loop (l1 ++ l2) factor d names n
  = let '(d1, names1, n1) := addindices_loop l1 factor d names n in
    addindices_loop l2 factor d1 names1 n1.
Proof.
  revert d names n. induction l1 as [|f l1 IH]; intros d names n; simpl.
  - done.
  - destruct (f d names factor) as [band bandid]. apply IH.
Qed.

(** What the loop keeps and what it adds. *)
Lemma addindices_loop_grows indices factor d names n d' names' n' :
  addindices_loop indices factor d names n = (d', names', n') →
  n' = (n + length indices)%nat ∧
  attrs d' = attrs d ∧
  layers d `prefix_of` layers d' ∧
  names `prefix_of` names' ∧
  length (layers d') = (length (layers d) + length indices)%nat ∧
  length names' = (length names + length indices)%nat.
Proof.
  revert d names n. induction indices as [|f l IH]; intros d names n; simpl.
  - intros [= <- <- <-]. rewrite !Nat.add_0_r. by repeat split.
  - destruct (f d names factor) as [band bandid]. intros Hl.
    apply IH in Hl as (-> & Ha & Hp & Hq & Hlen & Hlen').
    simpl in *. rewrite length_app in Hlen, Hlen'. simpl in *.
    repeat split; try lia; try done.
    + etrans; [|exact Hp]. by apply prefix_app_r.
    + etrans; [|exact Hq]. by apply prefix_app_r.
Qed.

(** The band and the name that the [i]-th function contributes. *)
Lemma addindices_loop_nth indices factor d names n d' names' n' i f di ni ki :
  addindices_loop indices factor d names n = (d', names', n') →
  indices !! i = Some f →
  addindices_loop (take i indices) factor d names n = (di, ni, ki) →
  layers d' !! (length (layers d) + i)%nat
    = Some (Z.of_nat (n + i + 1), (f di ni factor).1) ∧
  names' !! (length names + i)%nat = Some (f di ni factor).2.
Proof.
  intros Hloop Hf Hpre.
  rewrite <- (take_drop_middle indices i f Hf) in Hloop.
  rewrite addindices_loop_app, Hpre in Hloop. simpl in Hloop.
  destruct (f di ni factor) as [band bandid] eqn:Hfb; simpl.
  apply addindices_loop_grows in Hpre as (-> & _ & _ & _ & Hl1 & Hl2).
  apply addindices_loop_grows in Hloop as (_ & _ & Hp & Hq & _ & _).
  assert (length (take i indices) = i) as Hti.
  { apply length_take_le. apply lookup_lt_Some in Hf. lia. }
  rewrite Hti in Hl1, Hl2, Hp.
  split.
  - eapply prefix_lookup_Some; [|exact Hp]. simpl.
    rewrite <- Hl1, list_lookup_middle by done.
    do 3 f_equal. lia.
  - eapply prefix_lookup_Some; [|exact Hq].
    by rewrite <- Hl2, list_lookup_middle.
Qed.

(** C1 (as amended). When the band-name list holds one name per band and
    the 'scales' and 'offsets' metadata are non-empty lists, [addindices]
    returns, keeps the existing bands and names, appends one band per index
    function, the [i]-th (from 0) at band coordinate [size + i + 1], appends
    the id returned with it to the names, so that the names and the band
    axis have the same size afterwards, and sets 'scales' and 'offsets' to
    that many copies of their first value. *)
Theorem addindices_spec (self : Raster) (d : DataArray) (names : list string)
    (indices : list index_fn) (factor : Z) (s0 o0 : Z) (ss os : list Z) :
  data self = Some d →
  bands self = Some (Some names) →
  length names = band_axis_size d →
  attrs d !! "scales" = Some (s0 :: ss) →
  attrs d !! "offsets" = Some (o0 :: os) →
  ∃ d' names',
    addindices self indices factor
      = Ok (set_bands (set_data self d') (Some names')) ∧
    band_axis_size d' = (band_axis_size d + length indices)%nat ∧
    length names' = band_axis_size d' ∧
    layers d `prefix_of` layers d' ∧
    names `prefix_of` names' ∧
    (∀ i f di ni ki,
       indices !! i = Some f →
       addindices_loop (take i indices) factor d names (length names)
         = (di, ni, ki) →
       layers d' !! (band_axis_size d + i)%nat
         = Some (Z.of_nat (band_axis_size d + i + 1), (f di ni factor).1) ∧
       names' !! (length names + i)%nat = Some (f di ni factor).2) ∧
    attrs d' = <["offsets" := replicate (band_axis_size d') o0]>
                 (<["scales" := replicate (band_axis_size d') s0]> (attrs d)).
Proof.
  intros Hd Hb Hlen Hs Ho. unfold addindices, bands_list.
  rewrite Hb, Hd; simpl.
  destruct (addindices_loop indices factor d names (length names))
    as [[d1 names1] n1] eqn:Hloop.
  pose proof (addindices_loop_grows _ _ _ _ _ _ _ _ Hloop)
    as (Hn & Ha & Hp & Hq & Hl1 & Hl2).
  unfold getitem. rewrite Ha, Hs; simpl.
  rewrite lookup_insert_ne by done. rewrite Ho; simpl.
  eexists _, names1. split; [reflexivity|].
  unfold band_axis_size in *; simpl.
  split; [lia|]. split; [lia|]. split; [done|]. split; [done|]. split.
  - intros i f di ni ki Hf Hpre.
    destruct (addindices_loop_nth _ _ _ _ _ _ _ _ _ _ _ _ _ Hloop Hf Hpre)
      as [H1 H2].
    split; [|exact H2]. rewrite H1. do 3 f_equal. lia.
  - rewrite Ha. do 2 f_equal; f_equal; lia.
Qed.

Lemma addindices_spec_witness :
  ∃ d' names',
    addindices (raster_of two_band ["Red"; "NIR"] [-9999])
      [first_band_index; first_band_index] 3
    = Ok (set_bands (set_data (raster_of two_band ["Red"; "NIR"] [-9999]) d')
            (Some names')) ∧
    band_axis_size d' = 4%nat ∧ length names' = 4%nat.
Proof.
  destruct (addindices_spec (raster_of two_band ["Red"; "NIR"] [-9999])
              two_band ["Red"; "NIR"] [first_band_index; first_band_index] 3
              1 0 [1] [0] eq_refl eq_refl eq_refl eq_refl eq_refl)
    as (d' & names' & Hrun & Hsz & Hnm & _).
  exists d', names'. split; [exact Hrun|]. split; [exact Hsz|].
  rewrite Hnm. exact Hsz.
Defined.

(** C1, as stated, fails: with fewer names than bands the call returns, and
    afterwards the names and the band axis still differ in size, the new
    band repeats an existing coordinate and 'scales' is shorter than the
    band axis. *)
Lemma addindices_short_names :
  band_axis_size two_band ≠ 0%nat ∧
  ∃ d' names',
    addindices (raster_of two_band ["Red"] [-9999]) [first_band_index] 1
      = Ok (raster_of d' names' [-9999]) ∧
    length names' = 2%nat ∧ band_axis_size d' = 3%nat ∧
    length names' ≠ band_axis_size d' ∧
    band_coords d' = [1; 2; 2] ∧
    attrs d' !! "scales" = Some [1; 1].
Proof.
  split; [done|].
  eexists _, _. split; [vm_compute; reflexivity|].
  vm_compute. repeat split; congruence.
Qed.

(** *** dropindices *)

Lemma for_each_assert (names dr : list string) msg :
  for_each (λ band : string,
      if bool_decide (band ∈ names) then Ok ()
      else Raise (AssertionError msg)) dr
  = if bool_decide (Forall (λ band, band ∈ names) dr)
    then Ok (replicate (length dr) ())
    else Raise (AssertionError msg).
Proof.
  induction dr as [|x dr IH]; simpl; [done|].
  destruct (bool_decide_reflect (x ∈ names)) as [Hx|Hx]; simpl.
  - rewrite IH.
    destruct (bool_decide_reflect (Forall (λ band, band ∈ names) dr)) as [H|H];
      simpl.
    + by rewrite bool_decide_true by (by constructor).
    + rewrite bool_decide_false; [done|]. by inversion 1.
  - rewrite bool_decide_false; [done|]. by inversion 1.
Qed.

Lemma index_elem_of (names : list string) x :
  x ∈ names → ∃ i, index names x = Ok i ∧ names !! i = Some x.
Proof.
  induction names as [|y names IH]; [by inversion 1|].
  intros Hx. simpl. destruct (decide (y = x)) as [->|Hne].
  - by exists 0%nat.
  - apply elem_of_cons in Hx as [->|Hx]; [done|].
    destruct (IH Hx) as (i & -> & Hi). by exists (S i).
Qed.

Lemma for_each_index (names dr : list string) :
  Forall (λ band, band ∈ names) dr →
  ∃ labels, for_each (λ ind_id,
              i ← index names ind_id; Ok (Z.of_nat i + 1)) dr = Ok labels.
Proof.
  induction 1 as [|x dr Hx _ [labels IH]]; simpl; [by eexists|].
  destruct (index_elem_of _ _ Hx) as (i & -> & _); simpl.
  rewrite IH; simpl. by eexists.
Qed.

(** The assertion of [dropindices] fails exactly when some requested name
    is not among the band names. *)
Lemma dropindices_assertion (self : Raster) (names dr : list string) :
  bands self = Some (Some names) →
  (∃ msg, dropindices self dr = Raise (AssertionError msg))
  ↔ ¬ Forall (λ band, band ∈ names) dr.
Proof.
  intros Hb. unfold dropindices, bands_list. rewrite Hb; simpl.
  rewrite for_each_assert.
  destruct (bool_decide_reflect (Forall (λ band, band ∈ names) dr)) as [H|H];
    simpl.
  - split; [|done]. intros [msg Hrun]. exfalso.
    destruct (for_each_index _ _ H) as [labels Hl].
    rewrite Hl in Hrun; simpl in Hrun.
    destruct (data self) as [d|]; simpl in Hrun; [|discriminate].
    unfold da_drop in Hrun. case_bool_decide; simpl in Hrun;
      [rewrite Hb in Hrun; simpl in Hrun|]; discriminate.
  - split; [done|]. intros _. by eexists.
Qed.

Lemma for_each_Forall2 {A B : Type} (f : A → result B) l bs :
  for_each f l = Ok bs → Forall2 (λ a b, f a = Ok b) l bs.
Proof.
  revert bs. induction l as [|a l IH]; intros bs; simpl.
  - intros [= <-]. constructor.
  - destruct (f a) as [b|e] eqn:Hfa; simpl; [|done].
    destruct (for_each f l) as [bs'|e]; simpl; [|done].
    intros [= <-]. constructor; [done|]. by apply IH.
Qed.

Lemma index_NoDup (names : list string) i x :
  NoDup names → names !! i = Some x → index names x = Ok i.
Proof.
  intros Hnd. revert i. induction Hnd as [|y names Hy _ IH]; intros i.
  - by destruct i.
  - destruct i as [|i]; simpl.
    + intros [= ->]. by rewrite decide_True.
    + intros Hi. rewrite decide_False.
      * by rewrite (IH i Hi).
      * intros ->. apply Hy. by eapply list_elem_of_lookup_2.
Qed.

Lemma filter_zip_agree {A B : Type} (P : A → Prop) (Q : B → Prop)
    `{!∀ a, Decision (P a)} `{!∀ b, Decision (Q b)}
    (la : list A) (lb : list B) :
  length la = length lb →
  (∀ i a b, la !! i = Some a → lb !! i = Some b → (P a ↔ Q b)) →
  filter P la = (filter (λ p, P p.1) (zip la lb)).*1 ∧
  filter Q lb = (filter (λ p, P p.1) (zip la lb)).*2.
Proof.
  revert lb. induction la as [|a la IH]; intros [|b lb] Hlen Hagree;
    simpl in *; try done.
  destruct (IH lb) as [IH1 IH2]; [lia|by intros i; apply (Hagree (S i))|].
  pose proof (Hagree 0%nat a b eq_refl eq_refl) as Hhead.
  rewrite !filter_cons; simpl.
  destruct (decide (P a)) as [Hp|Hp];
    [rewrite decide_True by (by apply Hhead)
    |rewrite decide_False by (by rewrite <- Hhead)];
    simpl; by rewrite IH1, IH2.
Qed.

Lemma index_lookup (names : list string) x i :
  index names x = Ok i → names !! i = Some x.
Proof.
  revert i. induction names as [|y names IH]; intros i; simpl; [done|].
  destruct (decide (y = x)) as [->|Hne].
  - by intros [= <-].
  - destruct (index names x) as [j|e]; simpl; [|done].
    intros [= <-]. by apply IH.
Qed.

(** On a raster whose band coordinates are 1, 2, ... in order, under
    distinct names, [dropindices] with names that are all present removes
    the bands of exactly those names, from the band axis and from the
    names; dropping every name leaves both empty. *)
Lemma dropindices_in_file_order (self : Raster) (d : DataArray)
    (names dr : list string) :
  data self = Some d →
  bands self = Some (Some names) →
  band_coords d = (λ i, Z.of_nat (S i)) <$> seq 0 (length names) →
  NoDup names →
  Forall (λ band, band ∈ names) dr →
  let kept := filter (λ p : string * (Z * Band), p.1 ∉ dr)
                (zip names (layers d)) in
  dropindices self dr
  = Ok (set_bands (set_data self {| layers := kept.*2; attrs := attrs d |})
          (Some kept.*1)) ∧
  ((∀ name, name ∈ names → name ∈ dr) → kept = []).
Proof.
  intros Hd Hb Hc Hnd Hall kept.
  assert (length names = length (layers d)) as Hlen.
  { apply (f_equal length) in Hc. unfold band_coords in Hc.
    by rewrite !length_fmap, length_seq in Hc. }
  assert (∀ i l, layers d !! i = Some l → l.1 = Z.of_nat (S i)) as Hcoord.
  { intros i l Hl. apply (f_equal (.!! i)) in Hc. unfold band_coords in Hc.
    rewrite !list_lookup_fmap, Hl in Hc. simpl in Hc.
    rewrite lookup_seq_lt in Hc; [by injection Hc|].
    apply lookup_lt_Some in Hl. lia. }
  split.
  2: { intros Hevery. destruct kept as [|p k] eqn:Hk; [done|]. exfalso.
       assert (p ∈ kept) as Hp by (rewrite Hk; by left).
       apply list_elem_of_filter in Hp as [Hnot Hp].
       apply list_elem_of_lookup in Hp as [i Hi].
       apply lookup_zip_with_Some in Hi as (n & l & -> & Hn & _).
       apply Hnot, Hevery. by eapply list_elem_of_lookup_2. }
  unfold dropindices, bands_list. rewrite Hb; simpl.
  rewrite for_each_assert, bool_decide_true by done; simpl.
  destruct (for_each_index _ _ Hall) as [labels Hlabels].
  rewrite Hlabels, Hd; simpl.
  apply for_each_Forall2 in Hlabels.
  assert (∀ i n, names !! i = Some n →
            (n ∈ dr ↔ Z.of_nat (S i) ∈ labels)) as Hagree.
  { intros i n Hn. split.
    - intros [k Hk]%list_elem_of_lookup.
      destruct (Forall2_lookup_l _ _ _ _ _ Hlabels Hk) as (lab & Hlab & Hf).
      rewrite (index_NoDup _ _ _ Hnd Hn) in Hf. simpl in Hf.
      injection Hf as <-. replace (Z.of_nat (S i)) with (Z.of_nat i + 1) by lia.
      by eapply list_elem_of_lookup_2.
    - intros [k Hk]%list_elem_of_lookup.
      destruct (Forall2_lookup_r _ _ _ _ _ Hlabels Hk) as (x & Hx & Hf).
      destruct (index names x) as [j|e] eqn:Hj; simpl in Hf; [|done].
      injection Hf as Hf. assert (j = i) as -> by lia.
      apply index_lookup in Hj. rewrite Hn in Hj. injection Hj as ->.
      by eapply list_elem_of_lookup_2. }
  unfold da_drop. rewrite bool_decide_true.
  2: { apply Forall_forall. intros lab [k Hk]%list_elem_of_lookup.
       destruct (Forall2_lookup_r _ _ _ _ _ Hlabels Hk) as (x & Hx & Hf).
       destruct (index names x) as [j|e] eqn:Hj; simpl in Hf; [|done].
       injection Hf as <-. apply index_lookup, lookup_lt_Some in Hj.
       rewrite Hc. apply list_elem_of_fmap. exists j. split; [lia|].
       apply elem_of_seq. lia. }
  simpl. rewrite Hb; simpl.
  destruct (filter_zip_agree (λ n : string, n ∉ dr)
              (λ l : Z * Band, l.1 ∉ labels) names (layers d) Hlen)
    as [Hnames Hlayers].
  { intros i n l Hn Hl. rewrite (Hcoord i l Hl). by rewrite (Hagree i n Hn). }
  fold kept in Hnames, Hlayers. by rewrite Hnames, Hlayers.
Qed.

(** C5, at the failing input: a three-band raster loaded with the names A,
    B, C, from which A has been dropped.  Dropping C then removes the pixels
    of B and keeps those of C under the name B; dropping B, which is
    present, raises [KeyError] and not an assertion. *)
Theorem dropindices_after_drop :
  ∃ r0 r1 r2,
    __init__ false disk (Some "scene.tif") (Some ["A"; "B"; "C"])
      1 2048 2048 None = Ok r0 ∧
    layers <$> data r0 = Some [(1, [[10]]); (2, [[20]]); (3, [[30]])] ∧
    dropindices r0 ["A"] = Ok r1 ∧
    bands r1 = Some (Some ["B"; "C"]) ∧
    layers <$> data r1 = Some [(2, [[20]]); (3, [[30]])] ∧
    dropindices r1 ["C"] = Ok r2 ∧
    bands r2 = Some (Some ["B"]) ∧
    layers <$> data r2 = Some [(3, [[30]])] ∧
    dropindices r1 ["B"] = Raise (KeyError "band").
Proof.
  eexists _, _, _.
  split; [vm_compute; reflexivity|]. split; [reflexivity|].
  split; [vm_compute; reflexivity|]. split; [reflexivity|].
  split; [reflexivity|].
  split; [vm_compute; reflexivity|]. split; [reflexivity|].
  split; [reflexivity|]. vm_compute; reflexivity.
Qed.

(** *** Loading *)

Lemma readable_files w name f :
  files w !! name = Some f → readable w name = Some f.
Proof. intros Hf. unfold readable. by rewrite Hf. Qed.

Lemma isfile_files w name f : files w !! name = Some f → isfile w name = true.
Proof.
  intros Hf. unfold isfile. apply bool_decide_eq_true. left. by rewrite Hf.
Qed.

Lemma init_missing_path gpu w filename names cb cx cy lg :
  isfile w filename = false →
  __init__ gpu w (Some filename) names cb cx cy lg
  = Raise (RuntimeError (filename +:+ " does not exist")).
Proof. intros Hf. unfold __init__. by rewrite Hf. Qed.

Lemma init_without_bands gpu w filename f cb cx cy lg :
  files w !! filename = Some f →
  __init__ gpu w (Some filename) None cb cx cy lg
  = Raise (RuntimeError "Must specify band names.").
Proof.
  intros Hf. unfold __init__, open_rasterio.
  by rewrite (isfile_files _ _ _ Hf), (readable_files _ _ _ Hf).
Qed.

Lemma init_never_without_bands gpu w filename cb cx cy lg :
  is_ok (__init__ gpu w (Some filename) None cb cx cy lg) = false.
Proof.
  unfold __init__, open_rasterio.
  destruct (isfile w filename); [|done].
  by destruct (readable w filename).
Qed.

Lemma init_records_nodata gpu w filename f names cb cx cy lg nd :
  files w !! filename = Some f →
  tags f !! "nodatavals" = Some nd →
  ∃ r, __init__ gpu w (Some filename) (Some names) cb cx cy lg = Ok r ∧
       nodataval r = Some nd ∧ bands r = Some (Some names) ∧
       data r = Some (to_dataarray f).
Proof.
  intros Hf Hnd. unfold __init__, open_rasterio, getitem.
  rewrite (isfile_files _ _ _ Hf), (readable_files _ _ _ Hf); simpl.
  rewrite Hnd; simpl. by eexists.
Qed.

Lemma readraster_missing_path self w filename names cb cx cy :
  readable w filename = None →
  readraster self w filename (Some names) cb cx cy
  = Raise (RasterioIOError filename).
Proof. intros Hf. unfold readraster, open_rasterio. by rewrite Hf. Qed.

Lemma readraster_records_nodata self w filename f names cb cx cy nd :
  readable w filename = Some f →
  tags f !! "nodatavals" = Some nd →
  ∃ r, readraster self w filename (Some names) cb cx cy = Ok r ∧
       nodataval r = Some nd ∧ bands r = Some (Some names) ∧
       data r = Some (to_dataarray f).
Proof.
  intros Hf Hnd. unfold readraster, open_rasterio, getitem.
  rewrite Hf; simpl. rewrite Hnd; simpl. by eexists.
Qed.

(** C8. Loading fails when the path does not exist and when no list of band
    names is supplied, through the constructor and through [readraster]
    alike: the constructor raises [RuntimeError] in both cases, [readraster]
    fails inside the raster library on the missing path and is refused with
    [TypeError] when the list is left out.  On the path of a raster, with a
    list of names, both load the data, keep the names and record the nodata
    values of the file's metadata in [self.nodataval]. *)
Theorem loading_spec (gpu : bool) (self : Raster) (w : world)
    (filename : string) (cb cx cy : Z) (lg : option string) :
  (isfile w filename = false → readable w filename = None →
   ∀ names,
     __init__ gpu w (Some filename) names cb cx cy lg
     = Raise (RuntimeError (filename +:+ " does not exist")) ∧
     is_ok (readraster self w filename names cb cx cy) = false ∧
     ∀ l, names = Some l →
          readraster self w filename names cb cx cy
          = Raise (RasterioIOError filename)) ∧
  (is_ok (__init__ gpu w (Some filename) None cb cx cy lg) = false ∧
   (∀ f, files w !! filename = Some f →
         __init__ gpu w (Some filename) None cb cx cy lg
         = Raise (RuntimeError "Must specify band names.")) ∧
   readraster self w filename None cb cx cy = Raise TypeError) ∧
  (∀ f names nd,
     files w !! filename = Some f →
     tags f !! "nodatavals" = Some nd →
     ∃ r r',
       __init__ gpu w (Some filename) (Some names) cb cx cy lg = Ok r ∧
       nodataval r = Some nd ∧ bands r = Some (Some names) ∧
       data r = Some (to_dataarray f) ∧
       readraster self w filename (Some names) cb cx cy = Ok r' ∧
       nodataval r' = Some nd ∧ bands r' = Some (Some names) ∧
       data r' = Some (to_dataarray f)).
Proof.
  split; [|split].
  - intros Hfile Hread names. split; [by apply init_missing_path|].
    destruct names as [l|]; [|by split].
    rewrite readraster_missing_path by done. split; [done|]. by intros ? _.
  - split; [apply init_never_without_bands|].
    split; [intros f Hf; by eapply init_without_bands|done].
  - intros f names nd Hf Hnd.
    destruct (init_records_nodata gpu w filename f names cb cx cy lg nd Hf Hnd)
      as (r & Hr & Hn & Hb & Hd).
    destruct (readraster_records_nodata self w filename f names cb cx cy nd
                (readable_files _ _ _ Hf) Hnd) as (r' & Hr' & Hn' & Hb' & Hd').
    by exists r, r'.
Qed.

Lemma loading_spec_witness :
  __init__ false disk (Some "absent.tif") (Some ["Red"]) 1 2048 2048 None
  = Raise (RuntimeError "absent.tif does not exist") ∧
  readraster empty_raster disk "absent.tif" (Some ["Red"]) 1 2048 2048
  = Raise (RasterioIOError "absent.tif") ∧
  ∃ r r',
    __init__ false disk (Some "scene.tif") (Some ["A"; "B"; "C"])
      1 2048 2048 None = Ok r ∧
    nodataval r = Some [-9999; -9999; -9999] ∧
    readraster empty_raster disk "scene.tif" (Some ["A"; "B"; "C"])
      1 2048 2048 = Ok r' ∧
    nodataval r' = Some [-9999; -9999; -9999].
Proof.
  destruct (loading_spec false empty_raster disk "absent.tif" 1 2048 2048 None)
    as (Hmissing & _ & _).
  destruct (Hmissing eq_refl eq_refl (Some ["Red"])) as (Hinit & _ & Hread).
  destruct (loading_spec false empty_raster disk "scene.tif" 1 2048 2048 None)
    as (_ & _ & Hload).
  destruct (Hload three_band_file ["A"; "B"; "C"] [-9999; -9999; -9999]
              eq_refl eq_refl)
    as (r & r' & Hr & Hn & _ & _ & Hr' & Hn' & _).
  split; [exact Hinit|]. split; [exact (Hread _ eq_refl)|].
  exists r, r'. by repeat split.
Defined.

(** *** Element types *)

Lemma astype_fits t v : fits t v → astype t v = v.
Proof.
  unfold fits, astype, iinfo_min, iinfo_max.
  destruct t; simpl; intros [Hlo Hhi];
    repeat match goal with
           | |- context [2 ^ ?n] =>
               let c := eval vm_compute in (2 ^ n) in change (2 ^ n) with c
           | H : context [2 ^ ?n] |- _ =>
               let c := eval vm_compute in (2 ^ n) in
               change (2 ^ n) with c in H
           end;
    try case_match; Z.div_mod_to_equations; lia.
Qed.

Lemma fits_zero t : fits t 0.
Proof. destruct t; unfold fits, iinfo_min, iinfo_max; simpl; lia. Qed.

(** A mask value, an unsigned byte, converts to zero only if it is zero. *)
Lemma astype_byte_zero t m : 0 <= m <= 255 → astype t m = 0 → m = 0.
Proof.
  unfold astype. intros Hm.
  destruct t; simpl;
    repeat match goal with
           | |- context [2 ^ ?n] =>
               let c := eval vm_compute in (2 ^ n) in change (2 ^ n) with c
           end;
    try case_match; Z.div_mod_to_equations; lia.
Qed.

(** *** toraster *)

Lemma assign_where_length t v p src :
  length (assign_where t v p src) = length p.
Proof.
  revert src. induction p as [|e p IH]; intros [|s src]; simpl; auto.
Qed.

Lemma assign_where_lookup t v p src i e s :
  p !! i = Some e → src !! i = Some s →
  assign_where t v p src !! i = Some (if s =? v then astype t s else e).
Proof.
  revert src i. induction p as [|e' p IH]; intros [|s' src] [|i]; simpl;
    try done.
  - by intros [= ->] [= ->].
  - apply IH.
Qed.

(** The buffer changes exactly when a selected position held another
    value. *)
Lemma assign_where_changes t v p src :
  assign_where t v p src ≠ p
  ↔ ∃ i e, src !! i = Some v ∧ p !! i = Some e ∧ e ≠ astype t v.
Proof.
  revert src. induction p as [|e p IH]; intros [|s src]; simpl.
  - split; [done|]. by intros (i & e & _ & ? & _).
  - split; [done|]. by intros (i & e & _ & ? & _).
  - split; [done|]. by intros (i & e' & ? & _).
  - split.
    + intros Hne.
      destruct (Z.eqb_spec s v) as [->|Hsv].
      * destruct (decide (e = astype t v)) as [->|He].
        -- assert (assign_where t v p src ≠ p) as Hp by congruence.
           apply IH in Hp as (i & e' & ? & ? & ?). by exists (S i), e'.
        -- by exists 0%nat, e.
      * assert (assign_where t v p src ≠ p) as Hp by congruence.
        apply IH in Hp as (i & e' & ? & ? & ?). by exists (S i), e'.
    + intros ([|i] & e' & Hs & He & Hd); simpl in *.
      * injection Hs as ->. injection He as ->.
        rewrite Z.eqb_refl. congruence.
      * assert (assign_where t v p src ≠ p) as Hp
          by (apply IH; by exists i, e').
        congruence.
Qed.

(** What a call that gets through the reading and the shape check does:
    the store holds the masked buffer at the caller's reference, and the
    same buffer went to the writer. *)
Lemma toraster_runs self h w rast prediction dtype output src nd rest p :
  readable w rast = Some src →
  nodataval self = Some (nd :: rest) →
  h !! prediction = Some p →
  shape p = shape (mask1 src) →
  let p' := {| adtype := adtype p; shape := shape p;
               flat := assign_where (adtype p) nd (flat p)
                         (flat (substituted dtype nd (mask1 src))) |} in
  toraster self h w rast prediction dtype output
  = Ok (<[prediction := p']> h,
        rio_write w output (out_profile src dtype) p').
Proof.
  intros Hf Hnd Hp Hsh. unfold toraster, rio_open, setitem_from.
  rewrite Hf; simpl. rewrite Hnd; simpl. rewrite Hp; simpl.
  rewrite decide_True by done. reflexivity.
Qed.

Lemma toraster_missing_reference self h w rast prediction dtype output :
  readable w rast = None →
  toraster self h w rast prediction dtype output
  = Raise (RasterioIOError rast).
Proof. intros Hf. unfold toraster, rio_open. by rewrite Hf. Qed.

Lemma substituted_lookup dtype nd mask i m :
  flat mask !! i = Some m →
  flat (substituted dtype nd mask) !! i
  = Some (if astype dtype m =? 0 then astype dtype nd else astype dtype m).
Proof.
  intros Hm. unfold substituted, setitem_eq, arr_astype; simpl.
  rewrite !list_lookup_fmap, Hm. reflexivity.
Qed.

Lemma substituted_length dtype nd mask :
  length (flat (substituted dtype nd mask)) = length (flat mask).
Proof.
  unfold substituted, setitem_eq, arr_astype; simpl.
  by rewrite !length_fmap.
Qed.

Lemma assign_where_id t v p src :
  (∀ i, src !! i ≠ Some v) → assign_where t v p src = p.
Proof.
  intros Hno. destruct (decide (assign_where t v p src = p)) as [|Hne]; [done|].
  apply assign_where_changes in Hne as (i & e & Hs & _). by destruct (Hno i).
Qed.

(** C7, where the code departs from it.  [toraster] stores the nodata value
    into the converted mask where it is zero, and then selects the
    positions of the prediction by comparing that mask with the nodata
    value: a pixel that the reference marks valid is replaced too when its
    mask value, converted to [dtype], is the nodata value.  At such a
    position the array that is written, and the caller's buffer, hold the
    nodata value although the mask is not zero there. *)
Theorem toraster_masks_valid_pixels
    self h w rast prediction dtype output src nd rest p i m v :
  files w !! rast = Some src →
  nodataval self = Some (nd :: rest) →
  h !! prediction = Some p →
  shape p = shape (mask1 src) →
  flat (mask1 src) !! i = Some m →
  m ≠ 0 →
  astype dtype m = nd →
  flat p !! i = Some v →
  ∃ p' w',
    toraster self h w rast prediction dtype output
      = Ok (<[prediction := p']> h, w') ∧
    written w' !! output = Some (out_profile src dtype, p') ∧
    prof_dtype (out_profile src dtype) = dtype ∧
    count (out_profile src dtype) = 1 ∧
    flat p' !! i = Some (astype (adtype p) nd) ∧
    (v ≠ astype (adtype p) nd → flat p' !! i ≠ flat p !! i).
Proof.
  intros Hf Hnd Hp Hsh Hm Hm0 Hcol Hv. eexists _, _.
  split; [by eapply toraster_runs, Hsh; [apply readable_files| |]|]. simpl.
  split; [by rewrite lookup_insert_eq|]. split; [done|]. split; [done|].
  assert (flat (substituted dtype nd (mask1 src)) !! i = Some nd) as Hs.
  { rewrite (substituted_lookup _ _ _ _ _ Hm), Hcol.
    destruct (Z.eqb_spec nd 0) as [->|_]; [|done].
    by rewrite (astype_fits dtype 0) by apply fits_zero. }
  rewrite (assign_where_lookup _ _ _ _ _ _ _ Hv Hs), Z.eqb_refl.
  split; [done|]. rewrite Hv. congruence.
Qed.

(** A reference whose pixels are all valid (mask 255) and a raster whose
    nodata value is 255: the prediction [1, 2] is written as
    [255, 255]. *)
Lemma toraster_masks_valid_pixels_witness :
  (0 ∉ flat (mask1 (reference_file [255; 255]))) ∧
  ∃ p' w',
    toraster (raster_of two_band ["Red"; "NIR"] [255])
      {[ 0%nat := buffer 1 2 ]} disk "valid.tif" 0%nat int16 "out.tif"
    = Ok (<[0%nat := p']> {[ 0%nat := buffer 1 2 ]}, w') ∧
    written w' !! "out.tif"
    = Some (out_profile (reference_file [255; 255]) int16, p') ∧
    flat p' !! 0%nat = Some 255.
Proof.
  split.
  - simpl. intros H. repeat (apply elem_of_cons in H as [H|H]; [done|]).
    by apply elem_of_nil in H.
  - destruct (toraster_masks_valid_pixels
                (raster_of two_band ["Red"; "NIR"] [255])
                {[ 0%nat := buffer 1 2 ]} disk "valid.tif" 0%nat int16
                "out.tif" (reference_file [255; 255]) 255 [] (buffer 1 2)
                0%nat 255 1)
      as (p' & w' & Hrun & Hw & _ & _ & Hi & _).
    + reflexivity.
    + reflexivity.
    + reflexivity.
    + reflexivity.
    + reflexivity.
    + discriminate.
    + reflexivity.
    + reflexivity.
    + exists p', w'. split; [exact Hrun|]. split; [exact Hw|exact Hi].
Defined.

(** C10 (as amended). [toraster] stores into the caller's array: at the
    caller's reference the store afterwards holds the array in which every
    position where the substituted mask equals the nodata value has the
    nodata value (converted to the element type of the buffer, which leaves
    it as it is when it fits) and every other position its old value; that
    same array is what the writer receives.  The buffer differs from what it
    was exactly when one of those positions held another value. *)
Theorem toraster_mutates_prediction
    self h w rast prediction dtype output src nd rest p :
  files w !! rast = Some src →
  nodataval self = Some (nd :: rest) →
  h !! prediction = Some p →
  shape p = shape (mask1 src) →
  ∃ p' w',
    toraster self h w rast prediction dtype output
      = Ok (<[prediction := p']> h, w') ∧
    written w' !! output = Some (out_profile src dtype, p') ∧
    adtype p' = adtype p ∧ shape p' = shape p ∧
    length (flat p') = length (flat p) ∧
    (∀ i s v,
       flat (substituted dtype nd (mask1 src)) !! i = Some s →
       flat p !! i = Some v →
       flat p' !! i = Some (if s =? nd then astype (adtype p) nd else v)) ∧
    (fits (adtype p) nd → astype (adtype p) nd = nd) ∧
    (p' ≠ p ↔
     ∃ i v, flat (substituted dtype nd (mask1 src)) !! i = Some nd ∧
            flat p !! i = Some v ∧ v ≠ astype (adtype p) nd).
Proof.
  intros Hf Hnd Hp Hsh. apply readable_files in Hf. eexists _, _.
  split; [by eapply toraster_runs|]. simpl.
  split; [by rewrite lookup_insert_eq|].
  split; [done|]. split; [done|].
  split; [apply assign_where_length|].
  split.
  { intros i s v Hs Hv. erewrite assign_where_lookup by done.
    by destruct (Z.eqb_spec s nd) as [->|]. }
  split; [apply astype_fits|].
  rewrite <- assign_where_changes.
  destruct p as [t sh fl]; simpl. split; intros H; congruence.
Qed.

Lemma toraster_mutates_prediction_witness :
  ∃ p' w',
    toraster (raster_of two_band ["Red"; "NIR"] [-9999])
      {[ 0%nat := buffer 3 4 ]} disk "edge.tif" 0%nat int16 "out.tif"
    = Ok (<[0%nat := p']> {[ 0%nat := buffer 3 4 ]}, w') ∧
    p' ≠ buffer 3 4.
Proof.
  destruct (toraster_mutates_prediction
              (raster_of two_band ["Red"; "NIR"] [-9999])
              {[ 0%nat := buffer 3 4 ]} disk "edge.tif" 0%nat int16 "out.tif"
              (reference_file [0; 255]) (-9999) [] (buffer 3 4))
    as (p' & w' & Hrun & _ & _ & _ & _ & _ & _ & Hdiff).
  - reflexivity.
  - reflexivity.
  - reflexivity.
  - reflexivity.
  - exists p', w'. split; [exact Hrun|].
    apply Hdiff. exists 0%nat, 3. repeat split. discriminate.
Defined.

(** C10, as stated, fails: the mask contains a zero, and the buffer after
    the call is what it was, because the position already held the nodata
    value. *)
Lemma toraster_buffer_unchanged :
  0 ∈ flat (mask1 (reference_file [0; 255])) ∧
  ∃ w',
    toraster (raster_of two_band ["Red"; "NIR"] [7])
      {[ 0%nat := buffer 7 5 ]} disk "edge.tif" 0%nat int16 "out.tif"
    = Ok ({[ 0%nat := buffer 7 5 ]}, w').
Proof.
  split; [by left|]. eexists. vm_compute; reflexivity.
Qed.

End XrasterFacts.

(** * Properties of the segmentation dataset *)

Module TerragpuFacts.
Import Terragpu.

(** Reading an attribute that was just set, or set earlier. *)
Ltac attr :=
  repeat (rewrite lookup_insert_ne by done);
  rewrite ?lookup_insert_eq, ?lookup_empty.

Lemma for_each_total {A B : Type} (f : A → result B) (g : A → B) l :
  (∀ a, f a = Ok (g a)) → for_each f l = Ok (g <$> l).
Proof.
  intros Hf. induction l as [|a l IH]; simpl; [done|].
  by rewrite Hf, IH.
Qed.

Lemma join_images_labels dd : join dd "images" ≠ join dd "labels".
Proof.
  unfold join; simpl.
  destruct (bool_decide (dd = "") || endswith_sep dd);
    intros H; apply (inj _) in H; discriminate.
Qed.

(** *** Directories *)

Lemma string_app_assoc (s t u : string) : (s +:+ t) +:+ u = s +:+ (t +:+ u).
Proof.
  induction s as [|c s IH]; [done|].
  change (String c s +:+ t) with (String c (s +:+ t)).
  change (String c s +:+ (t +:+ u)) with (String c (s +:+ (t +:+ u))).
  change (String c (s +:+ t) +:+ u) with (String c ((s +:+ t) +:+ u)).
  by rewrite IH.
Qed.

Lemma split_sep_not_nil b : split_sep b ≠ [].
Proof.
  destruct b as [|c b']; simpl; [done|].
  case_bool_decide; [done|]. by destruct (split_sep b').
Qed.

Lemma split_sep_free b :
  split_sep b = [b] →
  match b with
  | EmptyString => True
  | String c b' => c ≠ "/"%char ∧ split_sep b' = [b']
  end.
Proof.
  destruct b as [|c b']; simpl; [done|].
  case_bool_decide as Hc; [done|]. intros Hs. split; [done|].
  pose proof (split_sep_not_nil b') as Hnil.
  destruct (split_sep b') as [|x xs]; [done|congruence].
Qed.

Lemma all_sep_app_free pre b :
  b ≠ "" → split_sep b = [b] → all_sep (pre +:+ b) = false.
Proof.
  intros Hne Hb. induction pre as [|c pre IH]; simpl.
  - apply split_sep_free in Hb. destruct b as [|c b']; [done|].
    destruct Hb as [Hc _]. simpl. by rewrite bool_decide_false.
  - by rewrite IH, andb_false_r.
Qed.

Lemma ancestors_from_free acc b : split_sep b = [b] → ancestors_from acc b = [].
Proof.
  revert acc. induction b as [|c b' IH]; intros acc Hb; [done|].
  apply split_sep_free in Hb as [Hc Hb]. simpl.
  rewrite bool_decide_false by done. simpl. by apply IH.
Qed.

(** The directories above [pre/b] do not depend on the last component. *)
Lemma ancestors_from_app acc pre b b' :
  b ≠ "" → split_sep b = [b] → b' ≠ "" → split_sep b' = [b'] →
  ancestors_from acc (pre +:+ b) = ancestors_from acc (pre +:+ b').
Proof.
  intros Hne Hb Hne' Hb'. revert acc.
  induction pre as [|c pre IH]; intros acc; simpl.
  - by rewrite !ancestors_from_free.
  - by rewrite !all_sep_app_free, IH.
Qed.

Lemma ancestors_join dd :
  ancestors (join dd "labels") = ancestors (join dd "images").
Proof.
  unfold ancestors, join; simpl.
  destruct (bool_decide (dd = "") || endswith_sep dd).
  - by apply ancestors_from_app.
  - rewrite <- !string_app_assoc. by apply ancestors_from_app.
Qed.

Lemma isdir_key fs path : is_Some (fs !! path) → isdir fs path = true.
Proof.
  intros Hp. apply bool_decide_eq_true, Exists_exists. exists path.
  split; [|by left]. by apply elem_of_elements, elem_of_dom.
Qed.

Lemma isdir_above fs path q :
  is_Some (fs !! q) → path ∈ ancestors q → isdir fs path = true.
Proof.
  intros Hq Hp. apply bool_decide_eq_true, Exists_exists. exists q.
  split; [|by right]. by apply elem_of_elements, elem_of_dom.
Qed.

Lemma isdir_mono fs fs' path :
  (∀ d, is_Some (fs !! d) → is_Some (fs' !! d)) →
  isdir fs path = true → isdir fs' path = true.
Proof.
  intros Hsub H. apply bool_decide_eq_true, Exists_exists in H.
  destruct H as (q & Hq & Hp).
  apply bool_decide_eq_true, Exists_exists. exists q. split; [|done].
  apply elem_of_elements, elem_of_dom, Hsub.
  by apply elem_of_dom, elem_of_elements.
Qed.

(** Making the missing directories of a list keeps every listing, and adds
    empty listings only, for directories of the list that were missing. *)
Lemma foldl_mkdir_missing l fs :
  (∀ d m, fs !! d = Some m → foldl mkdir_missing fs l !! d = Some m) ∧
  (∀ d m, foldl mkdir_missing fs l !! d = Some m → fs !! d = None →
     m = ∅ ∧ d ∈ l ∧ isdir fs d = false).
Proof.
  revert fs. induction l as [|a l IH]; intros fs; simpl.
  - split; [done|]. intros d m ??. congruence.
  - destruct (IH (mkdir_missing fs a)) as [Hkeep Hnew].
    unfold mkdir_missing in *. destruct (isdir fs a) eqn:Ha.
    + split; [exact Hkeep|]. intros d m Hd Hn.
      destruct (Hnew d m Hd Hn) as (? & ? & ?). split; [done|].
      split; [by right|done].
    + assert (fs !! a = None) as Hnone.
      { destruct (fs !! a) eqn:E; [|done].
        rewrite isdir_key in Ha by (by rewrite E). done. }
      split.
      * intros d m Hd. apply Hkeep. rewrite lookup_insert_ne; [done|].
        intros <-. congruence.
      * intros d m Hd Hn. destruct (decide (a = d)) as [<-|Hne].
        -- rewrite (Hkeep a ∅) in Hd by (by rewrite lookup_insert_eq).
           injection Hd as <-. split; [done|]. split; [by left|done].
        -- destruct (Hnew d m Hd) as (? & ? & Hdir);
             [by rewrite lookup_insert_ne|].
           split; [done|]. split; [by right|].
           destruct (isdir fs d) eqn:E; [|done].
           rewrite (isdir_mono fs (<[a:=∅]> fs) d) in Hdir; [done| |done].
           intros d' [m' Hd']. exists m'. rewrite lookup_insert_ne; [done|].
           intros <-. congruence.
Qed.

(** *** Tile names *)

Lemma string_length_app (s t : string) :
  String.length (s +:+ t) = (String.length s + String.length t)%nat.
Proof. induction s as [|c s IH]; simpl; [done|]. by rewrite IH. Qed.

Lemma string_app_inj_r (s1 s2 t : string) : s1 +:+ t = s2 +:+ t → s1 = s2.
Proof.
  revert s2. induction s1 as [|c s1 IH]; intros [|c' s2] H; simpl in *.
  - done.
  - apply (f_equal String.length) in H.
    rewrite ?string_length_app in H. simpl in H.
    rewrite ?string_length_app in H. lia.
  - apply (f_equal String.length) in H.
    rewrite ?string_length_app in H. simpl in H.
    rewrite ?string_length_app in H. lia.
  - injection H as -> H. f_equal. by apply IH.
Qed.

Lemma tile_name_inj filename : Inj (=) (=) (tile_name filename).
Proof.
  intros id id' H. unfold tile_name in H.
  apply (inj _) in H. apply (inj (String.app "_")) in H.
  apply string_app_inj_r in H. by apply (inj pretty) in H.
Qed.

Lemma add_tiles_other filename tiles start m e :
  (∀ id, (id < length tiles)%nat → e ≠ tile_name filename (start + id)) →
  add_tiles filename start tiles m !! e = m !! e.
Proof.
  revert start m. induction tiles as [|t tiles IH]; intros start m He; simpl.
  - done.
  - rewrite IH.
    + rewrite lookup_insert_ne; [done|].
      specialize (He 0%nat). rewrite Nat.add_0_r in He.
      intros <-. apply He; simpl; [lia|done].
    + intros id Hid. replace (S start + id)%nat with (start + S id)%nat by lia.
      apply He. simpl. lia.
Qed.

Lemma add_tiles_new filename tiles start m id :
  (id < length tiles)%nat →
  add_tiles filename start tiles m !! tile_name filename (start + id)
  = tiles !! id.
Proof.
  revert start m id. induction tiles as [|t tiles IH]; intros start m id Hid;
    simpl in *; [lia|].
  destruct id as [|id]; simpl.
  - rewrite add_tiles_other.
    + by rewrite Nat.add_0_r, lookup_insert_eq.
    + intros id Hid' H%tile_name_inj. lia.
  - replace (start + S id)%nat with (S start + id)%nat by lia.
    apply IH. lia.
Qed.

Lemma add_tiles_size filename tiles start m :
  (∀ id, (start ≤ id)%nat → m !! tile_name filename id = None) →
  size (add_tiles filename start tiles m) = (length tiles + size m)%nat.
Proof.
  revert start m. induction tiles as [|t tiles IH]; intros start m Hm; simpl.
  - done.
  - rewrite IH.
    + rewrite map_size_insert_None by (by apply Hm). lia.
    + intros id Hid. rewrite lookup_insert_ne; [apply Hm; lia|].
      intros H%tile_name_inj. lia.
Qed.

(** *** The tiler *)

Lemma gen_random_tiles_length rng image label ts mp :
  length (gen_random_tiles rng image label ts mp).1
  = n_patches mp (n_positions image ts) ∧
  length (gen_random_tiles rng image label ts mp).2
  = n_patches mp (n_positions image ts).
Proof.
  unfold gen_random_tiles; simpl. by rewrite !length_fmap, length_seq.
Qed.

Lemma list_getitem_nat {A : Type} (l : list A) i a :
  l !! i = Some a → list_getitem l (Z.of_nat i) = Ok a.
Proof.
  intros Hi. unfold list_getitem.
  pose proof (lookup_lt_Some _ _ _ Hi) as Hlt.
  destruct (Z.ltb_spec (Z.of_nat i) 0) as [?|_]; [lia|].
  destruct (Z.leb_spec 0 (Z.of_nat i)) as [_|?]; [|lia].
  destruct (Z.ltb_spec (Z.of_nat i) (Z.of_nat (length l))) as [_|?]; [|lia].
  simpl. by rewrite Nat2Z.id, Hi.
Qed.

Section Facts.

Variable glob : string → list string.
Variable open_rasterio : string → result ndarray.
Variable modify_bands : ndarray → list string → list string → result ndarray.
Variable standardize_local : array → array.
Variable rng : nat → nat * nat.

Lemma makedirs_spec path fs :
  ∃ fs', makedirs path fs = (fs', Ok ()) ∧
         is_Some (fs' !! path) ∧
         (∀ d m, fs !! d = Some m → fs' !! d = Some m) ∧
         (∀ d m, fs' !! d = Some m → fs !! d = None →
            m = ∅ ∧ (d = path ∨ (d ∈ ancestors path ∧ isdir fs d = false))).
Proof.
  unfold makedirs.
  destruct (foldl_mkdir_missing (ancestors path) fs) as [Hkeep Hnew].
  destruct (foldl mkdir_missing fs (ancestors path) !! path) eqn:Hp.
  - eexists. split; [done|]. split; [by rewrite Hp|]. split; [exact Hkeep|].
    intros d m Hd Hn. destruct (Hnew d m Hd Hn) as (? & ? & ?). eauto.
  - eexists. split; [done|]. split; [by rewrite lookup_insert_eq|]. split.
    + intros d m Hd. rewrite lookup_insert_ne; [by apply Hkeep|].
      intros <-. apply Hkeep in Hd. congruence.
    + intros d m Hd Hn. destruct (decide (path = d)) as [->|Hne].
      * rewrite lookup_insert_eq in Hd. injection Hd as <-. eauto.
      * rewrite lookup_insert_ne in Hd by done.
        destruct (Hnew d m Hd Hn) as (? & ? & ?). eauto.
Qed.

(** The two [os.makedirs] calls of the constructor. *)
Lemma init_makedirs (dd : string) (fs : filesystem) :
  ∃ fs2,
    (_ ← makedirs (join dd "images"); makedirs (join dd "labels")) fs
    = (fs2, Ok ()) ∧
    is_Some (fs2 !! join dd "images") ∧
    is_Some (fs2 !! join dd "labels") ∧
    (∀ p m, fs !! p = Some m → fs2 !! p = Some m) ∧
    (∀ p m, fs2 !! p = Some m → fs !! p = None →
       m = ∅ ∧
       (p = join dd "images" ∨ p = join dd "labels" ∨
        (p ∈ ancestors (join dd "images") ∧ isdir fs p = false))) ∧
    (∀ p, p ∈ ancestors (join dd "images") → isdir fs2 p = true).
Proof.
  destruct (makedirs_spec (join dd "images") fs)
    as (fs1 & Hm1 & [m1 Hs1] & Hk1 & Hn1).
  destruct (makedirs_spec (join dd "labels") fs1)
    as (fs2 & Hm2 & Hs2 & Hk2 & Hn2).
  exists fs2. unfold mbind, io_bind. rewrite Hm1. split; [exact Hm2|].
  split; [exists m1; by apply Hk2|]. split; [exact Hs2|].
  split; [intros p m Hp; by apply Hk2, Hk1|].
  split.
  - intros p m Hp Hnone. destruct (fs1 !! p) as [m'|] eqn:Hp1.
    + destruct (Hn1 p m' Hp1 Hnone) as [-> Hwhich].
      apply Hk2 in Hp1. split; [congruence|]. destruct Hwhich; auto.
    + destruct (Hn2 p m Hp Hp1) as [-> [->|[Hin Hdir]]]; [by auto|].
      split; [done|]. right. right. rewrite ancestors_join in Hin.
      split; [done|]. destruct (isdir fs p) eqn:E; [|done].
      rewrite (isdir_mono fs fs1 p) in Hdir; [done| |done].
      intros d [m' Hd]. exists m'. by apply Hk1.
  - intros p Hp. eapply isdir_above; [|exact Hp]. exists m1. by apply Hk2.
Qed.

(** C6 (as amended). Construction with [dataset_dir=None] fails on the
    assertion and leaves the file system as it was.  Construction with
    [generate_dataset=True] and a missing glob pattern fails on an assertion
    after the two [os.makedirs] calls: afterwards the images and the labels
    directory exist, with every directory above them; every directory that
    had a listing has it unchanged; and a listing that is new is empty and
    belongs to one of the two directories or to a directory above them that
    was missing. *)
Theorem init_configuration_failures (a : init_args) (fs : filesystem) :
  (dataset_dir a = None →
   __init__ glob open_rasterio modify_bands rng a fs
   = (fs, Raise (AssertionError "dataset_dir=None should be defined."))) ∧
  (∀ dd,
     dataset_dir a = Some dd →
     generate_dataset a = true →
     images_regex a = None ∨ labels_regex a = None →
     ∃ fs' msg,
       __init__ glob open_rasterio modify_bands rng a fs
       = (fs', Raise (AssertionError msg)) ∧
       is_Some (fs' !! join dd "images") ∧
       is_Some (fs' !! join dd "labels") ∧
       (∀ d, d ∈ ancestors (join dd "images") → isdir fs' d = true) ∧
       (∀ d m, fs !! d = Some m → fs' !! d = Some m) ∧
       (∀ d m, fs' !! d = Some m → fs !! d = None →
               m = ∅ ∧
               (d = join dd "images" ∨ d = join dd "labels" ∨
                (d ∈ ancestors (join dd "images") ∧ isdir fs d = false)))).
Proof.
  split.
  - intros Hdd. unfold __init__. rewrite Hdd. reflexivity.
  - intros dd Hdd Hgen Hre. unfold __init__. rewrite Hdd, Hgen.
    destruct (init_makedirs dd fs)
      as (fs2 & Hmk & Hs1 & Hs2 & Hkeep & Hnew & Habove).
    unfold mbind, io_bind in Hmk.
    unfold mbind at 1, io_bind at 1.
    destruct (makedirs (join dd "images") fs) as [fs1 [[]|e]]; [|done].
    unfold mbind at 1, io_bind at 1. rewrite Hmk.
    unfold mbind at 1, io_bind at 1.
    exists fs2.
    destruct (images_regex a) as [ir|]; [destruct (labels_regex a) as [lr|]|].
    + by destruct Hre.
    + eexists. split; [reflexivity|]. eauto 10.
    + eexists. split; [reflexivity|]. eauto 10.
Qed.

Lemma get_filenames_spec (self : object) idir ldir fs :
  self !! "images_dir" = Some (VStr idir) →
  self !! "labels_dir" = Some (VStr ldir) →
  get_filenames self fs
  = match fs !! idir with
    | Some d =>
        (fs, Ok ((λ i, {[ "image" := join idir i; "label" := join ldir i ]})
                   <$> elements (dom d)))
    | None => (fs, Raise (FileNotFoundError idir))
    end.
Proof.
  intros Hi Hl. unfold get_filenames, attr_str. rewrite Hi.
  unfold mbind at 1, io_bind at 1, lift at 1.
  unfold mbind at 1, io_bind at 1, listdir.
  destruct (fs !! idir) as [d|]; [|done].
  unfold lift. erewrite for_each_total; [done|].
  intros i. by rewrite Hl.
Qed.

(** C2, on every dataset that was constructed: [__len__] is the length of
    the manifest, one record per entry of the images directory listing, and
    [__getitem__] raises [AttributeError] for every index, because
    [open_image] reads [self.files], an attribute the class never sets (the
    manifest is stored as [self.data_filenames]). *)
Theorem getitem_reads_unset_files (a : init_args) (fs fs' : filesystem)
    (self : object) :
  __init__ glob open_rasterio modify_bands rng a fs = (fs', Ok self) →
  ∃ dd names,
    dataset_dir a = Some dd ∧
    listdir (join dd "images") fs' = (fs', Ok names) ∧
    self !! "data_filenames"
    = Some (VRecords
        ((λ i, {[ "image" := join (join dd "images") i;
                  "label" := join (join dd "labels") i ]}) <$> names)) ∧
    __len__ self = Ok (length names) ∧
    self !! "files" = None ∧
    ∀ idx fs0,
      __getitem__ standardize_local self idx fs0
      = (fs0, Raise (AttributeError "files")).
Proof.
  unfold __init__. destruct (dataset_dir a) as [dd|]; [|discriminate].
  destruct (makedirs_spec (join dd "images") fs)
    as (fs1 & Hm1 & _).
  destruct (makedirs_spec (join dd "labels") fs1)
    as (fs2 & Hm2 & _).
  unfold mbind at 1, io_bind at 1. rewrite Hm1.
  unfold mbind at 1, io_bind at 1. rewrite Hm2.
  unfold mbind at 1, io_bind at 1.
  match goal with |- context [(if generate_dataset a then ?x else ?y) fs2] =>
    destruct ((if generate_dataset a then x else y) fs2) as [fs3 [self1|e]] eqn:Hgen end.
  2: { intros [= _ ?]. }
  assert (self1 !! "images_dir" = Some (VStr (join dd "images")) ∧
          self1 !! "labels_dir" = Some (VStr (join dd "labels")) ∧
          self1 !! "files" = None) as (Hi & Hl & Hfiles).
  { destruct (generate_dataset a).
    - destruct (images_regex a) as [ir|]; [|discriminate].
      destruct (labels_regex a) as [lr|]; [|discriminate].
      unfold mbind, io_bind in Hgen.
      match type of Hgen with context [gen_dataset ?g ?o ?m ?r ?s ?f] =>
        destruct (gen_dataset g o m r s f) as [fs4 [[]|e]] end;
        [|discriminate].
      injection Hgen as _ <-. by attr.
    - injection Hgen as _ <-. by attr. }
  clear Hgen.
  unfold mbind at 1, io_bind at 1, listdir at 1.
  destruct (fs3 !! join dd "images") as [d|] eqn:Hd; [|discriminate].
  destruct (0 <? length (elements (dom d)))%nat; [|discriminate].
  unfold mbind at 1, io_bind at 1.
  rewrite (get_filenames_spec _ _ _ _ Hi Hl), Hd.
  intros [= <- <-].
  exists dd, (elements (dom d)).
  split; [done|]. split; [unfold listdir; by rewrite Hd|].
  split; [by attr|].
  split. { unfold __len__, attr_records. attr. simpl. by rewrite length_fmap. }
  assert ((<["transform":=transform a]>
             (<["data_filenames":=VRecords
                 ((λ i, {["image" := join (join dd "images") i;
                          "label" := join (join dd "labels") i]}) <$>
                  elements (dom d))]> self1)) !! "files" = None) as Hnone.
  { by attr. }
  split; [exact Hnone|].
  intros idx fs0. unfold __getitem__, open_image, attr_records.
  rewrite Hnone. reflexivity.
Qed.

(** *** Saving the tiles of one scene *)

Lemma save_loop idir ldir filename (its lts : list ndarray) :
  idir ≠ ldir →
  ∀ k start fs di dl,
    (start + k ≤ length its)%nat → (start + k ≤ length lts)%nat →
    fs !! idir = Some di → fs !! ldir = Some dl →
    ∃ fs',
      for_io (λ id,
          image_tile ← lift (list_getitem its (Z.of_nat id));
          _ ← save idir (tile_name filename id) image_tile;
          label_tile ← lift (list_getitem lts (Z.of_nat id));
          save ldir (tile_name filename id) label_tile)
        (seq start k) fs = (fs', Ok ()) ∧
      fs' !! idir
      = Some (add_tiles filename start (take k (drop start its)) di) ∧
      fs' !! ldir
      = Some (add_tiles filename start (take k (drop start lts)) dl) ∧
      ∀ d, d ≠ idir → d ≠ ldir → fs' !! d = fs !! d.
Proof.
  intros Hne. induction k as [|k IH]; intros start fs di dl Hi Hl Hdi Hdl.
  - exists fs. simpl. done.
  - destruct (lookup_lt_is_Some_2 its start) as [t Ht]; [lia|].
    destruct (lookup_lt_is_Some_2 lts start) as [u Hu]; [lia|].
    simpl. unfold mbind at 1, io_bind at 1.
    unfold mbind at 1, io_bind at 1, lift at 1.
    rewrite (list_getitem_nat _ _ _ Ht).
    unfold mbind at 1, io_bind at 1, save at 1. rewrite Hdi.
    unfold mbind at 1, io_bind at 1, lift at 1.
    rewrite (list_getitem_nat _ _ _ Hu).
    unfold save at 1. rewrite lookup_insert_ne, Hdl by done.
    edestruct (IH (S start)
                 (<[ldir:=<[tile_name filename start:=u]> dl]>
                    (<[idir:=<[tile_name filename start:=t]> di]> fs))
                 (<[tile_name filename start:=t]> di)
                 (<[tile_name filename start:=u]> dl))
      as (fs' & Hrun & Hdi' & Hdl' & Hoth).
    + lia.
    + lia.
    + by rewrite lookup_insert_ne, lookup_insert_eq.
    + by rewrite lookup_insert_eq.
    + exists fs'. split; [exact Hrun|].
      rewrite (drop_S _ _ _ Ht), (drop_S _ _ _ Hu). simpl.
      split; [exact Hdi'|]. split; [exact Hdl'|].
      intros d H1 H2. rewrite Hoth by done.
      by rewrite !lookup_insert_ne.
Qed.

Lemma save_tiles_spec idir ldir filename (its lts : list ndarray) fs di dl :
  idir ≠ ldir →
  length its = length lts →
  fs !! idir = Some di → fs !! ldir = Some dl →
  ∃ fs',
    save_tiles idir ldir filename its lts fs = (fs', Ok ()) ∧
    fs' !! idir = Some (add_tiles filename 0 its di) ∧
    fs' !! ldir = Some (add_tiles filename 0 lts dl) ∧
    ∀ d, d ≠ idir → d ≠ ldir → fs' !! d = fs !! d.
Proof.
  intros Hne Hlen Hdi Hdl.
  destruct (save_loop idir ldir filename its lts Hne (length its) 0%nat
              fs di dl) as (fs' & Hrun & Hi & Hl & Hoth); try done; try lia.
  exists fs'. split; [exact Hrun|].
  rewrite drop_0, firstn_all in Hi.
  rewrite drop_0, Hlen, firstn_all in Hl. done.
Qed.

(** C9. For a scene that loads, with the images and labels directories in
    place, [process_scene] returns and saves every tile of the tiler in a
    file of its own: image tile [id] in the images directory and label tile
    [id] in the labels directory, both under the name '{stem}_{id}.npy',
    for every [id] below the number [n] of tiles.  These names are pairwise
    distinct, and every other entry of the two directories and every other
    directory is left as it was.  [n] is the number of tiles that
    [max_patches] asks of the tiler: with [max_patches=5] the scene yields
    exactly 5 image tile files and 5 label tile files, which are all the
    entries when the directories were empty. *)
Theorem process_scene_saves_tiles (self : object) (image label : string)
    (fs : filesystem) (ib ob : list string) (ts : nat) (mp : patches)
    (idir ldir : string) (img0 lbl0 img1 img2 : ndarray)
    (di dl : gmap string ndarray) :
  self !! "input_bands" = Some (VStrs ib) →
  self !! "output_bands" = Some (VStrs ob) →
  self !! "tile_size" = Some (VNat ts) →
  self !! "max_patches" = Some (VPatches mp) →
  self !! "images_dir" = Some (VStr idir) →
  self !! "labels_dir" = Some (VStr ldir) →
  idir ≠ ldir →
  open_rasterio image = Ok img0 →
  open_rasterio label = Ok lbl0 →
  modify_bands img0 ib ob = Ok img1 →
  moveaxis_0_last img1 = Ok img2 →
  fs !! idir = Some di →
  fs !! ldir = Some dl →
  let tiles := gen_random_tiles rng (arr_astype int16 img2)
                 (prepared_label lbl0) ts mp in
  let n := n_patches mp (n_positions (arr_astype int16 img2) ts) in
  ∃ fs' di' dl',
    process_scene open_rasterio modify_bands rng self image label fs
    = (fs', Ok ()) ∧
    length tiles.1 = n ∧ length tiles.2 = n ∧
    fs' !! idir = Some di' ∧ fs' !! ldir = Some dl' ∧
    (∀ d, d ≠ idir → d ≠ ldir → fs' !! d = fs !! d) ∧
    (∀ id, (id < n)%nat →
       di' !! tile_name (stem image) id = tiles.1 !! id ∧
       dl' !! tile_name (stem image) id = tiles.2 !! id) ∧
    (∀ e, (∀ id, (id < n)%nat → e ≠ tile_name (stem image) id) →
       di' !! e = di !! e ∧ dl' !! e = dl !! e) ∧
    NoDup (tile_name (stem image) <$> seq 0 n) ∧
    (di = ∅ → size di' = n) ∧
    (dl = ∅ → size dl' = n) ∧
    (mp = Count 5 → n = 5%nat).
Proof.
  intros Hib Hob Hts Hmp Hid Hld Hne Himg Hlbl Hmod Hmove Hdi Hdl tiles n.
  pose proof (gen_random_tiles_length rng (arr_astype int16 img2)
                (prepared_label lbl0) ts mp) as [Hn1 Hn2].
  fold tiles in Hn1, Hn2. fold n in Hn1, Hn2.
  destruct (save_tiles_spec idir ldir (stem image) tiles.1 tiles.2 fs di dl)
    as (fs' & Hrun & Hi & Hl & Hoth); try done; try congruence.
  exists fs', (add_tiles (stem image) 0 tiles.1 di),
    (add_tiles (stem image) 0 tiles.2 dl).
  split.
  { unfold process_scene, attr_strs, attr_nat, attr_patches, attr_str.
    rewrite Himg, Hlbl, Hib, Hob, Hts, Hmp, Hid, Hld.
    unfold mbind at 1, io_bind at 1, lift at 1.
    unfold mbind at 1, io_bind at 1, lift at 1.
    unfold mbind at 1, io_bind at 1, lift at 1.
    unfold mbind at 1, io_bind at 1, lift at 1.
    unfold mbind at 1, io_bind at 1, lift at 1. rewrite Hmod.
    unfold mbind at 1, io_bind at 1, lift at 1. rewrite Hmove. simpl.
    unfold mbind at 1, io_bind at 1, lift at 1.
    unfold mbind at 1, io_bind at 1, lift at 1.
    exact Hrun. }
  split; [exact Hn1|]. split; [exact Hn2|].
  split; [exact Hi|]. split; [exact Hl|]. split; [exact Hoth|].
  split.
  { intros id Hlt. split.
    - rewrite <- (add_tiles_new (stem image) tiles.1 0 di id) by lia. done.
    - rewrite <- (add_tiles_new (stem image) tiles.2 0 dl id) by lia. done. }
  split.
  { intros e He. split; apply add_tiles_other; intros id Hlt; apply He; lia. }
  split.
  { pose proof (tile_name_inj (stem image)) as Hinj.
    apply (NoDup_fmap_2 _), NoDup_seq. }
  split.
  { intros ->. rewrite add_tiles_size by (intros; apply lookup_empty).
    rewrite map_size_empty. lia. }
  split.
  { intros ->. rewrite add_tiles_size by (intros; apply lookup_empty).
    rewrite map_size_empty. lia. }
  by intros ->.
Qed.

(** *** Pairing of image and label files *)

Lemma sorted_Sorted l : Sorted String.le (sorted l).
Proof. apply (Sorted_merge_sort String.le). Qed.

Lemma sorted_Permutation l : sorted l ≡ₚ l.
Proof. apply merge_sort_Permutation. Qed.

Lemma for_io_all_ok {A : Type} (f : A → io unit) (l : list A) :
  (∀ a fs0, a ∈ l → ∃ fs1, f a fs0 = (fs1, Ok ())) →
  ∀ fs, ∃ fs', for_io f l fs = (fs', Ok ()).
Proof.
  induction l as [|a l IH]; intros Hok fs; simpl.
  - by exists fs.
  - unfold mbind, io_bind.
    destruct (Hok a fs) as [fs1 ->]; [by left|].
    apply IH. intros a' fs0 Ha'. apply Hok. by right.
Qed.

(** C3. [gen_dataset] sorts the two glob results independently and pairs
    them by position: the scenes it processes are the pairs of the
    [i]-th sorted image path with the [i]-th sorted label path, for [i]
    below the smaller of the two lengths; names are never compared.
    Nothing raises because of a difference in order or length: when every
    paired scene is processed without error, [gen_dataset] returns. *)
Theorem gen_dataset_pairs_by_position (self : object) (ir lr : string)
    (fs : filesystem) :
  self !! "images_regex" = Some (VStr ir) →
  self !! "labels_regex" = Some (VStr lr) →
  (Sorted String.le (sorted (glob ir)) ∧ sorted (glob ir) ≡ₚ glob ir) ∧
  (Sorted String.le (sorted (glob lr)) ∧ sorted (glob lr) ≡ₚ glob lr) ∧
  gen_dataset glob open_rasterio modify_bands rng self fs
  = for_io (λ '(image, label),
              process_scene open_rasterio modify_bands rng self image label)
      (pair_files (glob ir) (glob lr)) fs ∧
  length (pair_files (glob ir) (glob lr))
  = (length (glob ir) `min` length (glob lr))%nat ∧
  (∀ i image label,
     pair_files (glob ir) (glob lr) !! i = Some (image, label)
     ↔ sorted (glob ir) !! i = Some image ∧
       sorted (glob lr) !! i = Some label) ∧
  ((∀ image label fs0,
      (image, label) ∈ pair_files (glob ir) (glob lr) →
      ∃ fs1, process_scene open_rasterio modify_bands rng self image label fs0
             = (fs1, Ok ())) →
   ∃ fs', gen_dataset glob open_rasterio modify_bands rng self fs
          = (fs', Ok ())).
Proof.
  intros Hir Hlr.
  assert (gen_dataset glob open_rasterio modify_bands rng self fs
          = for_io (λ '(image, label),
              process_scene open_rasterio modify_bands rng self image label)
              (pair_files (glob ir) (glob lr)) fs) as Hrun.
  { unfold gen_dataset, attr_str. rewrite Hir, Hlr. reflexivity. }
  split; [split; [apply sorted_Sorted|apply sorted_Permutation]|].
  split; [split; [apply sorted_Sorted|apply sorted_Permutation]|].
  split; [exact Hrun|].
  split.
  { unfold pair_files. rewrite length_zip_with.
    by rewrite !(Permutation_length (sorted_Permutation _)). }
  split.
  { intros i image label. unfold pair_files. rewrite lookup_zip_with_Some.
    split.
    - by intros (x & y & [= -> ->] & ? & ?).
    - intros [? ?]. by exists image, label. }
  intros Hok. rewrite Hrun. apply for_io_all_ok.
  intros [image label] fs0 Hin. by apply Hok.
Qed.

End Facts.

(** *** Instances *)

Lemma init_configuration_failures_witness :
  ∃ fs' msg,
    __init__ ex_glob ex_open ex_modify_bands ex_rng
      {| input_bands := ["R"]; output_bands := ["R"]; tile_size := 2;
         max_patches := Count 5; dataset_dir := Some "d";
         generate_dataset := true; images_regex := Some "img/*.tif";
         labels_regex := None; transform := VBool false;
         test_size := (20 # 100)%Q; invert := true; normalize := false;
         standardize := false |} ex_tiles
    = (fs', Raise (AssertionError msg)) ∧
    fs' !! "d/images" = Some {[ "scene_0.npy" := blank 2 2 1 ]}.
Proof.
  destruct (proj2 (init_configuration_failures
              ex_glob ex_open ex_modify_bands ex_rng
              {| input_bands := ["R"]; output_bands := ["R"]; tile_size := 2;
                 max_patches := Count 5; dataset_dir := Some "d";
                 generate_dataset := true; images_regex := Some "img/*.tif";
                 labels_regex := None; transform := VBool false;
                 test_size := (20 # 100)%Q; invert := true; normalize := false;
                 standardize := false |} ex_tiles)
              "d" eq_refl eq_refl (or_intror eq_refl))
    as (fs' & msg & Hrun & _ & _ & _ & Hkeep & _).
  exists fs', msg. split; [exact Hrun|].
  apply Hkeep. reflexivity.
Defined.

(** C6, as stated, fails: with [generate_dataset=True] and no glob pattern
    the assertion is reached after [os.makedirs], so construction on an
    empty file system fails and leaves the dataset directory and its two
    subdirectories behind. *)
Lemma init_makes_directories_before_failing :
  __init__ ex_glob ex_open ex_modify_bands ex_rng
    {| input_bands := ["R"]; output_bands := ["R"]; tile_size := 2;
       max_patches := Count 5; dataset_dir := Some "d";
       generate_dataset := true; images_regex := None;
       labels_regex := None; transform := VBool false;
       test_size := (20 # 100)%Q; invert := true; normalize := false;
       standardize := false |} ∅
  = ({[ "d" := ∅; "d/images" := ∅; "d/labels" := ∅ ]},
     Raise (AssertionError
              "images_regex should be defined with generate_dataset=True.")) ∧
  ({[ "d" := ∅; "d/images" := ∅; "d/labels" := ∅ ]} : filesystem) ≠ ∅.
Proof.
  split; [vm_compute; reflexivity|]. apply insert_non_empty.
Qed.


(** A dataset over a directory that holds one tile pair: construction
    returns, the length is 1, and reading item 0 raises. *)
Lemma getitem_reads_unset_files_witness :
  ∃ self,
    __init__ ex_glob ex_open ex_modify_bands ex_rng ex_args ex_tiles
    = (ex_tiles, Ok self) ∧
    __len__ self = Ok 1%nat ∧
    __getitem__ ex_standardize self 0 ex_tiles
    = (ex_tiles, Raise (AttributeError "files")).
Proof.
  destruct (__init__ ex_glob ex_open ex_modify_bands ex_rng ex_args ex_tiles)
    as [fs' [self|e]] eqn:Hrun.
  - assert (fs' = ex_tiles) as ->.
    { apply (f_equal fst) in Hrun. simpl in Hrun. rewrite <- Hrun.
      vm_compute. reflexivity. }
    destruct (getitem_reads_unset_files ex_glob ex_open ex_modify_bands
                ex_standardize ex_rng ex_args ex_tiles ex_tiles self Hrun)
      as (dd & names & Hdd & Hls & _ & Hlen & _ & Hget).
    exists self. split; [reflexivity|].
    injection Hdd as <-.
    assert (listdir (join "d" "images") ex_tiles
            = (ex_tiles, Ok ["scene_0.npy"])) as Hc
      by (vm_compute; reflexivity).
    rewrite Hc in Hls. injection Hls as <-.
    split; [exact Hlen|apply Hget].
  - apply (f_equal (λ r : filesystem * result object, is_ok r.2)) in Hrun.
    vm_compute in Hrun. discriminate.
Defined.

(** The scene [img/b.tif] has a label file of its own name, and is paired
    with [lbl/c.tif]; the two patterns match two files each. *)
Lemma gen_dataset_pairs_by_position_witness :
  pair_files (ex_glob "img/*.tif") (ex_glob "lbl/*.tif") !! 1%nat
  = Some ("img/b.tif", "lbl/c.tif") ∧
  "lbl/b.tif" ∈ ex_glob "lbl/*.tif" ∧
  length (pair_files (ex_glob "one/*.tif") (ex_glob "lbl/*.tif")) = 1%nat.
Proof.
  pose proof (gen_dataset_pairs_by_position ex_glob ex_open ex_modify_bands
                ex_rng
                {[ "images_regex" := VStr "img/*.tif";
                   "labels_regex" := VStr "lbl/*.tif" ]}
                "img/*.tif" "lbl/*.tif" ∅ eq_refl eq_refl)
    as (_ & _ & _ & _ & Hpos & _).
  pose proof (gen_dataset_pairs_by_position ex_glob ex_open ex_modify_bands
                ex_rng
                {[ "images_regex" := VStr "one/*.tif";
                   "labels_regex" := VStr "lbl/*.tif" ]}
                "one/*.tif" "lbl/*.tif" ∅ eq_refl eq_refl)
    as (_ & _ & _ & Hlen & _).
  split; [|split].
  - apply Hpos. split; vm_compute; reflexivity.
  - vm_compute. right. left.
  - rewrite Hlen. reflexivity.
Defined.

(** One scene of 3 x 4 pixels with tiles of 2 x 2: 5 image tile files and
    5 label tile files. *)
Lemma process_scene_saves_tiles_witness :
  ∃ fs' di' dl',
    process_scene ex_open ex_modify_bands ex_rng (ex_self 2 (Count 5))
      "one/scene.tif" "one/scene.tif" {[ "d/images" := ∅; "d/labels" := ∅ ]}
    = (fs', Ok ()) ∧
    fs' !! "d/images" = Some di' ∧ fs' !! "d/labels" = Some dl' ∧
    size di' = 5%nat ∧ size dl' = 5%nat ∧
    is_Some (di' !! "scene_4.npy") ∧ is_Some (dl' !! "scene_4.npy").
Proof.
  destruct (process_scene_saves_tiles ex_open ex_modify_bands ex_rng
              (ex_self 2 (Count 5)) "one/scene.tif" "one/scene.tif"
              {[ "d/images" := ∅; "d/labels" := ∅ ]} ["R"] ["R"] 2 (Count 5)
              "d/images" "d/labels" (blank 1 3 4) (blank 1 3 4) (blank 1 3 4)
              (blank 3 4 1) ∅ ∅)
    as (fs' & di' & dl' & Hrun & Hn1 & Hn2 & Hi & Hl & _ & Hnew & _ & _
        & Hsi & Hsl & Hfive).
  - reflexivity.
  - reflexivity.
  - reflexivity.
  - reflexivity.
  - reflexivity.
  - reflexivity.
  - discriminate.
  - reflexivity.
  - reflexivity.
  - reflexivity.
  - reflexivity.
  - reflexivity.
  - reflexivity.
  - assert (n_patches (Count 5)
              (n_positions (arr_astype int16 (blank 3 4 1)) 2) = 5%nat) as Hn.
    { apply Hfive. reflexivity. }
    rewrite Hn in *.
    exists fs', di', dl'. split; [exact Hrun|].
    split; [exact Hi|]. split; [exact Hl|].
    split; [by apply Hsi|]. split; [by apply Hsl|].
    destruct (Hnew 4%nat) as [H1 H2]; [lia|].
    destruct (lookup_lt_is_Some_2 _ 4%nat
                (eq_ind_r (λ k, (4 < k)%nat) (le_n 5) Hn1)) as [t Ht].
    destruct (lookup_lt_is_Some_2 _ 4%nat
                (eq_ind_r (λ k, (4 < k)%nat) (le_n 5) Hn2)) as [u Hu].
    split.
    + exists t. etrans; [exact H1|exact Ht].
    + exists u. etrans; [exact H2|exact Hu].
Defined.

End TerragpuFacts.

(** * Further properties of the raster wrapper *)

Module XrasterMore.
Import Xraster XrasterFacts.

(** Case analysis on the first step of a computation that returned. *)
Ltac bind_inv H a Ha :=
  unfold mbind at 1, result_bind at 1 in H;
  match type of H with
  | match ?x with _ => _ end = _ => destruct x as [a|] eqn:Ha; [|done]
  end.

(** ** preprocess *)

(** X1. [preprocess] looks the operator up in a two-entry table: on a
    raster that holds data, any operator other than '<' and '>' raises
    [KeyError] with that operator; on a raster without data the call raises
    [AttributeError] whatever the operator. *)
Theorem preprocess_errors (self : Raster) (op : string) (boundary subs : Z) :
  (data self = None →
   preprocess self op boundary subs = Raise (AttributeError "data")) ∧
  (∀ d, data self = Some d → op ≠ "<" → op ≠ ">" →
   preprocess self op boundary subs = Raise (KeyError op)).
Proof.
  split.
  - intros Hd. unfold preprocess. by rewrite Hd.
  - intros d Hd Hlt Hgt. unfold preprocess, getitem, ops. rewrite Hd; simpl.
    rewrite lookup_insert_ne by done. by rewrite lookup_singleton_ne.
Qed.

Lemma preprocess_errors_witness :
  preprocess (raster_of row_example ["Red"] [-9999]) ">=" 0 0
  = Raise (KeyError ">=").
Proof.
  apply (proj2 (preprocess_errors (raster_of row_example ["Red"] [-9999])
                  ">=" 0 0) row_example); [reflexivity|discriminate..].
Defined.

Lemma da_where_idem d cond other :
  da_where (da_where d cond other) cond other = da_where d cond other.
Proof.
  unfold da_where; simpl. f_equal.
  rewrite <- list_fmap_compose. apply list_fmap_ext.
  intros i [c rws] _; simpl. f_equal.
  rewrite <- list_fmap_compose. apply list_fmap_ext.
  intros j row _; simpl.
  rewrite <- list_fmap_compose. apply list_fmap_ext.
  intros k v _; simpl.
  destruct (cond v) eqn:Hv; [by rewrite Hv|]. by destruct (cond other).
Qed.

(** X2. [preprocess] is idempotent: a second call with the same operator,
    boundary and substitute leaves the raster as the first call made it. *)
Theorem preprocess_idempotent (self r : Raster) (op : string)
    (boundary subs : Z) :
  preprocess self op boundary subs = Ok r →
  preprocess r op boundary subs = Ok r.
Proof.
  unfold preprocess. destruct (data self) as [d|]; simpl; [|done].
  destruct (getitem ops op) as [cmp|e]; simpl; [|done].
  intros [= <-]. simpl. by rewrite da_where_idem.
Qed.

Lemma preprocess_idempotent_witness :
  ∃ r, preprocess (raster_of row_example ["Red"] [-9999]) ">" 0 5 = Ok r ∧
       preprocess r ">" 0 5 = Ok r.
Proof.
  eexists. split; [reflexivity|].
  apply (preprocess_idempotent (raster_of row_example ["Red"] [-9999])).
  reflexivity.
Defined.

(** ** Loading *)

(** X3. The constructor loads as [readraster] does, behind one more
    check.  When the constructor succeeds with a list of band names,
    [readraster] with the same arguments on a raster constructed without a
    file succeeds with the same raster.  When [readraster] succeeds, the
    constructor succeeds with that raster if [os.path.isfile] accepts the
    name, and raises [RuntimeError] otherwise: a dataset that is no regular
    file loads through [readraster] only. *)
Theorem init_as_readraster (gpu : bool) (w : world) (filename : string)
    (names : list string) (cb cx cy : Z) (lg : option string) :
  (∀ r, __init__ gpu w (Some filename) (Some names) cb cx cy lg = Ok r →
        ∃ r0, __init__ gpu w None None cb cx cy lg = Ok r0 ∧
              readraster r0 w filename (Some names) cb cx cy = Ok r) ∧
  (∀ r0 r,
     __init__ gpu w None None cb cx cy lg = Ok r0 →
     readraster r0 w filename (Some names) cb cx cy = Ok r →
     __init__ gpu w (Some filename) (Some names) cb cx cy lg
     = if isfile w filename then Ok r
       else Raise (RuntimeError (filename +:+ " does not exist"))).
Proof.
  unfold __init__, readraster. split.
  - intros r H. destruct (isfile w filename); [|done].
    eexists. split; [reflexivity|]. exact H.
  - intros r0 r [= <-] H. by destruct (isfile w filename).
Qed.

(** A raster behind a URL: [readraster] loads it, the constructor refuses
    it. *)
Lemma init_as_readraster_witness :
  ∃ r,
    readraster empty_raster disk "https://host/scene.tif"
      (Some ["Red"; "Green"; "Blue"]) 1 2048 2048 = Ok r ∧
    __init__ false disk (Some "https://host/scene.tif")
      (Some ["Red"; "Green"; "Blue"]) 1 2048 2048 None
    = Raise (RuntimeError "https://host/scene.tif does not exist").
Proof.
  destruct (readraster empty_raster disk "https://host/scene.tif"
              (Some ["Red"; "Green"; "Blue"]) 1 2048 2048)
    as [r|e] eqn:H; [|vm_compute in H; discriminate].
  exists r. split; [reflexivity|].
  exact (proj2 (init_as_readraster false disk "https://host/scene.tif"
                  ["Red"; "Green"; "Blue"] 1 2048 2048 None)
           empty_raster r eq_refl H).
Defined.

(** X4. A raster constructed without a file holds no data, no band names
    and no nodata value, even when band names were passed; until
    [readraster] is called, [preprocess], [addindices], [dropindices] and
    [toraster] all raise [AttributeError]. *)
Theorem raster_without_file (gpu : bool) (w : world)
    (names : option (list string)) (cb cx cy : Z) (lg : option string) :
  ∃ r,
    __init__ gpu w None names cb cx cy lg = Ok r ∧
    data r = None ∧ bands r = None ∧ nodataval r = None ∧
    (∀ op boundary subs,
       preprocess r op boundary subs = Raise (AttributeError "data")) ∧
    (∀ indices factor,
       addindices r indices factor = Raise (AttributeError "bands")) ∧
    (∀ x dr, dropindices r (x :: dr) = Raise (AttributeError "bands")) ∧
    dropindices r [] = Raise (AttributeError "data") ∧
    (∀ h rast prediction dtype output,
       is_Some (files w !! rast) →
       toraster r h w rast prediction dtype output
       = Raise (AttributeError "nodataval")).
Proof.
  eexists. split; [reflexivity|]. repeat split.
  intros h rast prediction dtype output [src Hsrc].
  unfold toraster, rio_open. by rewrite (readable_files _ _ _ Hsrc).
Qed.

Lemma raster_without_file_witness :
  ∃ r,
    __init__ false disk None (Some ["Red"]) 1 2048 2048 None = Ok r ∧
    bands r = None ∧
    toraster r ∅ disk "edge.tif" 0%nat int16 "out.tif"
    = Raise (AttributeError "nodataval").
Proof.
  destruct (raster_without_file false disk (Some ["Red"]) 1 2048 2048 None)
    as (r & Hr & _ & Hb & _ & _ & _ & _ & _ & Ht).
  exists r. split; [exact Hr|]. split; [exact Hb|].
  apply Ht. by eexists.
Defined.

(** ** dropindices *)

(** X5. On a raster that holds a list of band names, [dropindices] fails
    on its assertion exactly when some requested name is not in that list;
    no other failure of the call is an assertion. *)
Theorem dropindices_assertion_iff (self : Raster) (names dr : list string) :
  bands self = Some (Some names) →
  (∃ msg, dropindices self dr = Raise (AssertionError msg))
  ↔ ∃ band, band ∈ dr ∧ band ∉ names.
Proof.
  intros Hb. rewrite (dropindices_assertion self names dr Hb).
  rewrite <- Exists_Forall_neg
    by (intros x; destruct (decide (x ∈ names)); auto).
  by rewrite Exists_exists.
Qed.

Lemma dropindices_assertion_iff_witness :
  ∃ msg, dropindices (raster_of two_band ["Red"; "NIR"] [-9999])
           ["Red"; "Blue"] = Raise (AssertionError msg).
Proof.
  apply (dropindices_assertion_iff (raster_of two_band ["Red"; "NIR"] [-9999])
           ["Red"; "NIR"] ["Red"; "Blue"] eq_refl).
  exists "Blue". split; [by right; left|].
  intros H. repeat (apply elem_of_cons in H as [H|H]; [discriminate|]).
  by apply elem_of_nil in H.
Defined.

(** X6. Whatever it is called on, a [dropindices] that returns has only
    removed: the bands left are a sublist of the bands before, the names
    left are the names before without the requested ones, in their order,
    and the metadata, the nodata value and the chunk sizes are
    untouched. *)
Theorem dropindices_only_removes (self r : Raster) (dr : list string) :
  dropindices self dr = Ok r →
  ∃ d d' names,
    data self = Some d ∧ bands self = Some (Some names) ∧
    data r = Some d' ∧
    bands r = Some (Some (filter (λ band, band ∉ dr) names)) ∧
    layers d' `sublist_of` layers d ∧
    filter (λ band, band ∉ dr) names `sublist_of` names ∧
    attrs d' = attrs d ∧
    nodataval r = nodataval self ∧ data_chunks r = data_chunks self.
Proof.
  unfold dropindices. intros H.
  bind_inv H us Hus. bind_inv H labels Hlabels.
  destruct (data self) as [d|] eqn:Hd; simpl in H; [|done].
  unfold da_drop in H. case_bool_decide; simpl in H; [|done].
  unfold bands_list in H. simpl in H.
  destruct (bands self) as [[names|]|] eqn:Hb; simpl in H; try done.
  injection H as <-. eexists d, _, names. simpl.
  repeat split; try done; apply sublist_filter.
Qed.

Lemma dropindices_only_removes_witness :
  ∃ d', data_chunks (raster_of two_band ["Red"; "NIR"] [-9999])
        = Some (1, 2048, 2048) ∧
        layers d' `sublist_of` layers two_band ∧ attrs d' = attrs two_band.
Proof.
  destruct (dropindices_only_removes
              (raster_of two_band ["Red"; "NIR"] [-9999])
              (raster_of {| layers := [(1, [[10]])]; attrs := attrs two_band |}
                 ["Red"] [-9999])
              ["NIR"])
    as (d & d' & names & Hd & _ & _ & _ & Hsub & _ & Ha & _).
  - vm_compute. reflexivity.
  - injection Hd as <-. exists d'. by split.
Defined.




Lemma band_coords_to_dataarray (f : RasterFile) :
  band_coords (to_dataarray f)
  = (λ i, Z.of_nat (S i)) <$> seq 0 (length (pixels f)).
Proof.
  unfold band_coords, to_dataarray; simpl.
  apply list_eq. intros i.
  rewrite !list_lookup_fmap, list_lookup_imap.
  destruct (pixels f !! i) as [b|] eqn:Hb; simpl.
  - by rewrite lookup_seq_lt by (by eapply lookup_lt_Some).
  - by rewrite lookup_seq_ge by (by apply lookup_ge_None).
Qed.

(** X8. On a raster just loaded from a file under distinct names, one per
    band, [dropindices] with names that are all present returns, and keeps
    exactly the bands and names that were not requested, paired as they
    were; requesting every name leaves no band and no name; the names and
    the band axis have the same size afterwards. *)
Theorem dropindices_after_loading (gpu : bool) (w : world) (filename : string)
    (f : RasterFile) (nd : list Z) (names dr : list string) (cb cx cy : Z)
    (lg : option string) :
  files w !! filename = Some f →
  tags f !! "nodatavals" = Some nd →
  length names = length (pixels f) →
  NoDup names →
  Forall (λ band, band ∈ names) dr →
  let kept := filter (λ p : string * (Z * Band), p.1 ∉ dr)
                (zip names (layers (to_dataarray f))) in
  ∃ r r' d',
    __init__ gpu w (Some filename) (Some names) cb cx cy lg = Ok r ∧
    dropindices r dr = Ok r' ∧
    data r' = Some d' ∧ layers d' = kept.*2 ∧
    bands r' = Some (Some kept.*1) ∧
    length kept.*1 = band_axis_size d' ∧
    ((∀ name, name ∈ names → name ∈ dr) → kept = []).
Proof.
  intros Hf Hnd Hlen Hdup Hall kept.
  destruct (init_records_nodata gpu w filename f names cb cx cy lg nd Hf Hnd)
    as (r & Hr & _ & Hb & Hd).
  destruct (dropindices_in_file_order r (to_dataarray f) names dr Hd Hb)
    as [Hrun Hnone]; try done.
  { by rewrite band_coords_to_dataarray, Hlen. }
  eexists r, _, _. split; [exact Hr|]. split; [exact Hrun|].
  simpl. split; [reflexivity|]. split; [reflexivity|]. split; [reflexivity|].
  split; [|exact Hnone].
  unfold band_axis_size; simpl. by rewrite !length_fmap.
Qed.

Lemma dropindices_after_loading_witness :
  ∃ r r' d',
    __init__ false disk (Some "scene.tif") (Some ["A"; "B"; "C"])
      1 2048 2048 None = Ok r ∧
    dropindices r ["C"; "A"] = Ok r' ∧
    data r' = Some d' ∧ layers d' = [(2, [[20]])] ∧
    bands r' = Some (Some ["B"]).
Proof.
  destruct (dropindices_after_loading false disk "scene.tif" three_band_file
              [-9999; -9999; -9999] ["A"; "B"; "C"] ["C"; "A"] 1 2048 2048
              None)
    as (r & r' & d' & Hr & Hrun & Hd & Hl & Hb & _).
  - reflexivity.
  - reflexivity.
  - reflexivity.
  - repeat constructor; intros H;
      repeat (apply elem_of_cons in H as [H|H]; [discriminate|]);
      by apply elem_of_nil in H.
  - repeat constructor; by repeat (first [left|right]).
  - exists r, r', d'. split; [exact Hr|]. split; [exact Hrun|].
    split; [exact Hd|]. split; [rewrite Hl|rewrite Hb]; reflexivity.
Defined.

(** ** addindices *)

Lemma addindices_loop_coords indices factor d names n d' names' n' :
  band_coords d = (λ i, Z.of_nat (S i)) <$> seq 0 n →
  addindices_loop indices factor d names n = (d', names', n') →
  band_coords d' = (λ i, Z.of_nat (S i)) <$> seq 0 n'.
Proof.
  revert d names n. induction indices as [|f l IH]; intros d names n Hc; simpl.
  - by intros [= <- _ <-].
  - destruct (f d names factor) as [band bandid]. apply IH.
    unfold band_coords, concat in *. cbn [layers].
    by rewrite fmap_app, Hc, seq_S, fmap_app.
Qed.

(** X9. [addindices] keeps the band coordinates in step with the names:
    when the coordinates are 1, 2, ... up to the number of names before the
    call, they are 1, 2, ... up to the number of names after it, which has
    grown by the number of index functions. *)
Theorem addindices_keeps_coordinates (self r : Raster) (d : DataArray)
    (names : list string) (indices : list index_fn) (factor : Z) :
  data self = Some d →
  bands self = Some (Some names) →
  band_coords d = (λ i, Z.of_nat (S i)) <$> seq 0 (length names) →
  addindices self indices factor = Ok r →
  ∃ d' names',
    data r = Some d' ∧ bands r = Some (Some names') ∧
    length names' = (length names + length indices)%nat ∧
    band_coords d' = (λ i, Z.of_nat (S i)) <$> seq 0 (length names').
Proof.
  intros Hd Hb Hc. unfold addindices, bands_list. rewrite Hb, Hd; simpl.
  destruct (addindices_loop indices factor d names (length names))
    as [[d1 names1] n1] eqn:Hloop.
  pose proof (addindices_loop_coords _ _ _ _ _ _ _ _ Hc Hloop) as Hc1.
  apply addindices_loop_grows in Hloop as (-> & _ & _ & _ & _ & Hlen).
  intros H. bind_inv H scales Hs. bind_inv H s0 Hs0.
  bind_inv H offsets Ho. bind_inv H o0 Ho0. injection H as <-.
  eexists _, names1. simpl. split; [reflexivity|]. split; [reflexivity|].
  split; [exact Hlen|]. unfold band_coords in *; simpl. by rewrite Hc1, Hlen.
Qed.

Lemma addindices_keeps_coordinates_witness :
  ∃ d', band_coords d' = [1; 2; 3] ∧
        addindices (raster_of two_band ["Red"; "NIR"] [-9999])
          [first_band_index] 2
        = Ok (raster_of d' ["Red"; "NIR"; "FB"] [-9999]).
Proof.
  destruct (addindices_keeps_coordinates
              (raster_of two_band ["Red"; "NIR"] [-9999])
              (raster_of
                 {| layers := [(1, [[10]]); (2, [[20]]); (3, [[20]])];
                    attrs := {[ "scales" := [1; 1; 1];
                                "offsets" := [0; 0; 0];
                                "nodatavals" := [-9999; -9999] ]} |}
                 ["Red"; "NIR"; "FB"] [-9999])
              two_band ["Red"; "NIR"] [first_band_index] 2)
    as (d' & names' & Hd & Hb & _ & Hc).
  - reflexivity.
  - reflexivity.
  - reflexivity.
  - vm_compute. reflexivity.
  - injection Hd as <-. injection Hb as <-. eexists. split; [exact Hc|].
    vm_compute. reflexivity.
Defined.

(** X10. [addindices] numbers the first new band by the number of names
    plus one, whatever coordinates the bands carry: when a band already has
    that coordinate, as after an earlier [dropindices] of a band other than
    the last, the band axis afterwards carries it twice. *)
Theorem addindices_repeats_coordinate (self r : Raster) (d : DataArray)
    (names : list string) (f : index_fn) (indices : list index_fn)
    (factor : Z) :
  data self = Some d →
  bands self = Some (Some names) →
  Z.of_nat (S (length names)) ∈ band_coords d →
  addindices self (f :: indices) factor = Ok r →
  ∃ d', data r = Some d' ∧ ¬ NoDup (band_coords d').
Proof.
  intros Hd Hb Hin. unfold addindices, bands_list. rewrite Hb, Hd; simpl.
  destruct (f d names factor) as [band bandid] eqn:Hf.
  destruct (addindices_loop indices factor _ _ _)
    as [[d1 names1] n1] eqn:Hloop.
  apply addindices_loop_grows in Hloop as (_ & _ & [rest Hp] & _).
  intros H. bind_inv H scales Hs. bind_inv H s0 Hs0.
  bind_inv H offsets Ho. bind_inv H o0 Ho0. injection H as <-.
  eexists. simpl. split; [reflexivity|].
  unfold band_coords in *; simpl in *. rewrite Hp, !fmap_app; simpl.
  rewrite <- (assoc_L (++)). intros Hnd.
  apply NoDup_app in Hnd as (_ & Hnd & _).
  apply (Hnd _ Hin). by left.
Qed.

Lemma addindices_repeats_coordinate_witness :
  ∃ r d',
    addindices
      (raster_of {| layers := [(2, [[20]]); (3, [[30]])];
                    attrs := attrs two_band |} ["B"; "C"] [-9999])
      [first_band_index] 1 = Ok r ∧
    data r = Some d' ∧ ¬ NoDup (band_coords d').
Proof.
  destruct (addindices
              (raster_of {| layers := [(2, [[20]]); (3, [[30]])];
                            attrs := attrs two_band |} ["B"; "C"] [-9999])
              [first_band_index] 1) as [r|e] eqn:Hrun.
  - destruct (addindices_repeats_coordinate
                (raster_of {| layers := [(2, [[20]]); (3, [[30]])];
                              attrs := attrs two_band |} ["B"; "C"] [-9999])
                r
                {| layers := [(2, [[20]]); (3, [[30]])];
                   attrs := attrs two_band |}
                ["B"; "C"] first_band_index [] 1)
      as (d' & Hd & Hnd).
    + reflexivity.
    + reflexivity.
    + right. left.
    + exact Hrun.
    + by exists r, d'.
  - vm_compute in Hrun. discriminate.
Defined.

(** ** toraster *)

(** What a call of [toraster] that returned went through. *)
Lemma toraster_inv self h w rast prediction dtype output h' w' :
  toraster self h w rast prediction dtype output = Ok (h', w') →
  ∃ src nd rest p,
    readable w rast = Some src ∧
    nodataval self = Some (nd :: rest) ∧
    h !! prediction = Some p ∧
    shape p = shape (mask1 src).
Proof.
  unfold toraster, rio_open. intros H.
  destruct (readable w rast) as [src|]; simpl in H; [|done].
  destruct (nodataval self) as [[|nd rest]|]; simpl in H; try done.
  destruct (h !! prediction) as [p|]; simpl in H; [|done].
  unfold setitem_from in H. case_decide; [|done].
  by exists src, nd, rest, p.
Qed.

Lemma assign_where_idem t v p src :
  assign_where t v (assign_where t v p src) src = assign_where t v p src.
Proof.
  revert src. induction p as [|e p IH]; intros [|s src]; simpl; try done.
  rewrite IH. by destruct (s =? v).
Qed.

Lemma readable_rio_write w output meta a :
  readable (rio_write w output meta a) output = Some (encoded w meta a).
Proof.
  unfold readable, rio_write; simpl. case_bool_decide as Hd.
  - destruct Hd as [-> _]. by rewrite lookup_insert_eq.
  - by rewrite lookup_insert_eq.
Qed.

Lemma readable_rio_write_ne w output meta a o :
  o ≠ output →
  readable (rio_write w output meta a) o = readable w o.
Proof.
  intros Ho. unfold readable, rio_write; simpl.
  case_bool_decide; by rewrite ?lookup_insert_ne by done.
Qed.

Lemma isfile_rio_write_ne w output meta a o :
  o ≠ output →
  isfile (rio_write w output meta a) o = isfile w o.
Proof.
  intros Ho. unfold isfile, rio_write; simpl. apply bool_decide_ext.
  rewrite elem_of_difference, elem_of_singleton.
  case_bool_decide; rewrite ?lookup_insert_ne by done; tauto.
Qed.

Lemma rio_write_twice w output meta a :
  rio_write (rio_write w output meta a) output meta a
  = rio_write w output meta a.
Proof.
  assert (plain w ∖ {[output]} ∖ {[output]} = plain w ∖ {[output]}) as Hpl.
  { apply set_eq. intros x. rewrite !elem_of_difference. tauto. }
  unfold rio_write.
  destruct (decide (files w !! output = None ∧ is_Some (datasets w !! output)))
    as [Hd|Hd].
  - rewrite (bool_decide_true (files w !! output = None ∧ _)) by done.
    cbn [files datasets plain encoded written].
    rewrite bool_decide_true
      by (destruct Hd; split; [done|by rewrite lookup_insert_eq]).
    by rewrite !insert_insert_eq, Hpl.
  - rewrite (bool_decide_false (files w !! output = None ∧ _)) by done.
    cbn [files datasets plain encoded written].
    rewrite bool_decide_false
      by (rewrite lookup_insert_eq; by intros [? _]).
    by rewrite !insert_insert_eq, Hpl.
Qed.

(** X11. Exporting twice to a file other than the reference is exporting
    once: after a [toraster] that returned, the same call on the resulting
    store and files returns and changes neither. *)
Theorem toraster_twice self h w rast prediction dtype output h' w' :
  output ≠ rast →
  toraster self h w rast prediction dtype output = Ok (h', w') →
  toraster self h' w' rast prediction dtype output = Ok (h', w').
Proof.
  intros Hne Hrun.
  destruct (toraster_inv _ _ _ _ _ _ _ _ _ Hrun)
    as (src & nd & rest & p & Hf & Hnd & Hp & Hsh).
  rewrite (toraster_runs _ _ _ _ _ dtype output _ _ _ _ Hf Hnd Hp Hsh) in Hrun.
  injection Hrun as <- <-.
  erewrite toraster_runs;
    [|by rewrite readable_rio_write_ne|exact Hnd
     |by rewrite lookup_insert_eq|exact Hsh].
  simpl. by rewrite assign_where_idem, insert_insert_eq, rio_write_twice.
Qed.

Lemma toraster_twice_witness :
  ∃ h' w',
    toraster (raster_of two_band ["Red"; "NIR"] [-9999])
      {[ 0%nat := buffer 3 4 ]} disk "edge.tif" 0%nat int16 "out.tif"
    = Ok (h', w') ∧
    toraster (raster_of two_band ["Red"; "NIR"] [-9999])
      h' w' "edge.tif" 0%nat int16 "out.tif" = Ok (h', w').
Proof.
  destruct (toraster (raster_of two_band ["Red"; "NIR"] [-9999])
              {[ 0%nat := buffer 3 4 ]} disk "edge.tif" 0%nat int16 "out.tif")
    as [[h' w']|e] eqn:Hrun.
  - exists h', w'. split; [reflexivity|].
    apply toraster_twice in Hrun; [exact Hrun|discriminate].
  - vm_compute in Hrun. discriminate.
Defined.

(** X12. A [toraster] that returned touched one array and one name: no
    array was added to the store and every other array is as before; every
    name other than [output] opens, is a regular file or not, and has its
    recorded output as before; [output] reads from then on as the raster
    the writer made of the masked array, also when it is the reference
    itself. *)
Theorem toraster_touches_one self h w rast prediction dtype output h' w' :
  toraster self h w rast prediction dtype output = Ok (h', w') →
  dom h' = dom h ∧
  (∀ q, q ≠ prediction → h' !! q = h !! q) ∧
  (∀ o, o ≠ output →
     readable w' o = readable w o ∧ isfile w' o = isfile w o ∧
     written w' !! o = written w !! o) ∧
  ∃ meta p',
    h' !! prediction = Some p' ∧
    written w' !! output = Some (meta, p') ∧
    readable w' output = Some (encoded w meta p').
Proof.
  intros Hrun.
  destruct (toraster_inv _ _ _ _ _ _ _ _ _ Hrun)
    as (src & nd & rest & p & Hf & Hnd & Hp & Hsh).
  rewrite (toraster_runs _ _ _ _ _ dtype output _ _ _ _ Hf Hnd Hp Hsh) in Hrun.
  injection Hrun as <- <-.
  split.
  { rewrite dom_insert_L. apply elem_of_dom_2 in Hp.
    apply set_eq. intros q. rewrite elem_of_union, elem_of_singleton.
    split; [by intros [->|?]|by right]. }
  split; [by intros q Hq; rewrite lookup_insert_ne|].
  split.
  { intros o Ho. split; [by apply readable_rio_write_ne|].
    split; [by apply isfile_rio_write_ne|].
    simpl. by rewrite lookup_insert_ne. }
  eexists _, _. split; [by rewrite lookup_insert_eq|].
  split; [simpl; by rewrite lookup_insert_eq|apply readable_rio_write].
Qed.

(** Exporting onto the reference: the other array of the store is kept, and
    the reference no longer reads as it did. *)
Lemma toraster_touches_one_witness :
  ∃ h' w',
    toraster (raster_of two_band ["Red"; "NIR"] [-9999])
      {[ 0%nat := buffer 3 4; 1%nat := buffer 5 6 ]} disk "edge.tif" 0%nat
      int16 "edge.tif" = Ok (h', w') ∧
    h' !! 1%nat = Some (buffer 5 6) ∧
    readable w' "valid.tif" = readable disk "valid.tif" ∧
    readable w' "edge.tif" ≠ readable disk "edge.tif".
Proof.
  destruct (toraster (raster_of two_band ["Red"; "NIR"] [-9999])
              {[ 0%nat := buffer 3 4; 1%nat := buffer 5 6 ]} disk "edge.tif"
              0%nat int16 "edge.tif")
    as [[h' w']|e] eqn:Hrun.
  - exists h', w'. split; [reflexivity|].
    pose proof Hrun as Hw. vm_compute in Hw. injection Hw as _ Hw.
    apply toraster_touches_one in Hrun as (_ & Hother & Hnames & _).
    split; [by rewrite Hother|].
    split; [by apply Hnames|].
    rewrite <- Hw. vm_compute. discriminate.
  - vm_compute in Hrun. discriminate.
Defined.

Lemma astype_in_range t v : fits t (astype t v).
Proof.
  unfold fits, astype, iinfo_min, iinfo_max.
  destruct t; simpl;
    repeat match goal with
           | |- context [2 ^ ?n] =>
               let c := eval vm_compute in (2 ^ n) in change (2 ^ n) with c
           end;
    try case_match; Z.div_mod_to_equations; lia.
Qed.

End XrasterMore.

(** * Further properties of the segmentation dataset *)

Module TerragpuMore.
Import Terragpu TerragpuFacts.
Import XrasterFacts XrasterMore.

(** ** Layout of the tiles *)

Lemma omap_lookup_total {A B : Type} (f : A → option B) (xs : list A) :
  (∀ x, x ∈ xs → is_Some (f x)) →
  length (omap f xs) = length xs ∧ ∀ n, omap f xs !! n = xs !! n ≫= f.
Proof.
  induction xs as [|x xs IH]; intros Hf; simpl.
  - split; [done|]. by intros n.
  - destruct (Hf x) as [y Hy]; [by left|]. rewrite Hy.
    destruct IH as [IH1 IH2]; [by intros x' ?; apply Hf; right|].
    split; [simpl; by f_equal|]. intros [|n]; simpl; [done|]. apply IH2.
Qed.

Lemma bind_lookup_uniform {A B : Type} (g : A → list B) (r : nat)
    (ls : list A) n i :
  (∀ a, a ∈ ls → length (g a) = r) →
  (i < r)%nat →
  (ls ≫= g) !! (n * r + i)%nat = ls !! n ≫= λ a, g a !! i.
Proof.
  revert n. induction ls as [|a ls IH]; intros n Hlen Hi.
  - by destruct n.
  - rewrite bind_cons. destruct n as [|n]; simpl.
    + rewrite lookup_app_l; [done|]. rewrite Hlen by (by left). lia.
    + rewrite lookup_app_r by (rewrite Hlen by (by left); lia).
      rewrite Hlen by (by left).
      replace (r + n * r + i - r)%nat with (n * r + i)%nat by lia.
      apply IH; [|done]. intros a' ?. apply Hlen. by right.
Qed.

Lemma bind_length_uniform {A B : Type} (g : A → list B) (r : nat)
    (ls : list A) :
  (∀ a, a ∈ ls → length (g a) = r) →
  length (ls ≫= g) = (length ls * r)%nat.
Proof.
  induction ls as [|a ls IH]; intros Hlen; [done|].
  rewrite bind_cons, length_app, Hlen by (by left).
  rewrite IH; [done|]. intros a' ?. apply Hlen. by right.
Qed.

Lemma transpose_flat_spec {A : Type} (r c : nat) (l : list A) :
  length l = (r * c)%nat →
  length (transpose_flat r c l) = (c * r)%nat ∧
  ∀ i j, (i < r)%nat → (j < c)%nat →
    transpose_flat r c l !! (j * r + i)%nat = l !! (i * c + j)%nat.
Proof.
  intros Hlen. unfold transpose_flat.
  assert (∀ j, j ∈ seq 0 c →
            length (omap (λ i, l !! (i * c + j)%nat) (seq 0 r)) = r ∧
            ∀ n, omap (λ i, l !! (i * c + j)%nat) (seq 0 r) !! n
                 = seq 0 r !! n ≫= λ i, l !! (i * c + j)%nat) as Hcol.
  { intros j Hj%elem_of_seq.
    destruct (omap_lookup_total (λ i, l !! (i * c + j)%nat) (seq 0 r))
      as [H1 H2].
    - intros i Hi%elem_of_seq. apply lookup_lt_is_Some_2. nia.
    - by rewrite length_seq in H1. }
  split.
  - rewrite (bind_length_uniform _ r) by (intros j Hj; by apply Hcol).
    by rewrite length_seq.
  - intros i j Hi Hj.
    rewrite (bind_lookup_uniform _ r) by (done || intros a Ha; by apply Hcol).
    rewrite lookup_seq_lt by done. simpl.
    destruct (Hcol j) as [_ ->]; [apply elem_of_seq; lia|].
    by rewrite lookup_seq_lt by done.
Qed.

Lemma transpose_flat_twice {A : Type} (r c : nat) (l : list A) :
  length l = (r * c)%nat →
  transpose_flat c r (transpose_flat r c l) = l.
Proof.
  intros Hlen.
  destruct (transpose_flat_spec r c l Hlen) as [Hl1 Hx1].
  destruct (transpose_flat_spec c r _ Hl1) as [Hl2 Hx2].
  apply list_eq. intros k.
  destruct (decide (k < r * c)%nat) as [Hk|Hk].
  - assert (0 < c)%nat as Hc by nia.
    pose proof (Nat.div_mod_eq k c) as Hdm.
    pose proof (Nat.mod_upper_bound k c ltac:(lia)) as Hmod.
    assert (k `div` c < r)%nat as Hdiv by (apply Nat.Div0.div_lt_upper_bound; lia).
    replace k with ((k `div` c) * c + k `mod` c)%nat at 1 2 by lia.
    rewrite Hx2 by done. by rewrite Hx1.
  - rewrite !lookup_ge_None_2; [done|lia|lia].
Qed.

(** X13. The axis move that [gen_dataset] applies before tiling (bands
    first to bands last) is undone by the transpose that [open_image]
    applies under [invert]: on a three-dimensional array that holds as many
    elements as its shape says, moving the axis and transposing gives the
    array back. *)
Theorem moveaxis_then_transpose (a : ndarray) (c h w : nat) :
  shape a = [c; h; w] →
  length (flat a) = (c * (h * w))%nat →
  moveaxis_0_last a ≫= transpose_201 = Ok a.
Proof.
  intros Hsh Hlen. unfold moveaxis_0_last, transpose_201. rewrite Hsh; simpl.
  rewrite Nat.mul_1_r, transpose_flat_twice by done.
  destruct a; simpl in *. by subst.
Qed.

Lemma moveaxis_then_transpose_witness :
  moveaxis_0_last
    {| adtype := int16; shape := [2; 1; 3]%nat; flat := [1; 2; 3; 4; 5; 6] |}
  ≫= transpose_201
  = Ok {| adtype := int16; shape := [2; 1; 3]%nat;
          flat := [1; 2; 3; 4; 5; 6] |}.
Proof.
  apply (moveaxis_then_transpose _ 2 1 3); reflexivity.
Defined.

Lemma transpose_flat_elem {A : Type} (r c : nat) (l : list A) x :
  x ∈ transpose_flat r c l → x ∈ l.
Proof.
  unfold transpose_flat. intros (j & Hx & _)%list_elem_of_bind.
  apply list_elem_of_omap in Hx as (i & _ & Hx).
  by eapply list_elem_of_lookup_2.
Qed.

(** X14. The image that [gen_dataset] hands to the tiler is an [int16]
    array whose elements all lie in the [int16] range, with the leading
    axis of the loaded array moved to the end: when the loaded elements were
    in range they are kept as they are, and otherwise they are wrapped, so
    that a value from 32768 to 65535 of unsigned 16-bit imagery arrives
    65536 lower. *)
Theorem tiler_image_is_int16 (a b : ndarray) :
  moveaxis_0_last a = Ok b →
  ∃ s0 rest,
    shape a = s0 :: rest ∧
    adtype (arr_astype int16 b) = int16 ∧
    shape (arr_astype int16 b) = (rest ++ [s0])%list ∧
    Forall (fits int16) (flat (arr_astype int16 b)) ∧
    (Forall (fits int16) (flat a) →
     flat (arr_astype int16 b) = transpose_flat s0 (product rest) (flat a)) ∧
    (∀ v, 32768 <= v <= 65535 → astype int16 v = v - 65536).
Proof.
  unfold moveaxis_0_last. destruct (shape a) as [|s0 rest] eqn:Hsh; [done|].
  intros [= <-]. exists s0, rest. simpl.
  split; [done|]. split; [done|]. split; [done|]. split.
  { apply Forall_fmap, Forall_true. intros v. apply astype_in_range. }
  split.
  { intros Hfit. rewrite <- (list_fmap_id (transpose_flat _ _ _)) at 2.
    apply list_fmap_ext. intros i v Hv. apply astype_fits.
    rewrite Forall_forall in Hfit. apply Hfit.
    eapply transpose_flat_elem, list_elem_of_lookup_2, Hv. }
  intros v Hv. unfold astype; simpl.
  change (2 ^ 16) with 65536. change (2 ^ (16 - 1)) with 32768.
  rewrite Z.mod_small by lia.
  destruct (Z.leb_spec 32768 v); [done|lia].
Qed.

Lemma tiler_image_is_int16_witness :
  flat (arr_astype int16
          {| adtype := uint16; shape := [1; 2; 1]%nat; flat := [40000; 7] |})
  = [-25536; 7].
Proof.
  destruct (tiler_image_is_int16
              {| adtype := uint16; shape := [1; 1; 2]%nat;
                 flat := [40000; 7] |}
              {| adtype := uint16; shape := [1; 2; 1]%nat;
                 flat := [40000; 7] |} eq_refl)
    as (s0 & rest & _ & _ & _ & _ & _ & Hwrap).
  simpl. rewrite (Hwrap 40000) by lia. reflexivity.
Defined.

(** ** Saving tiles *)

Lemma add_tiles_dom filename tiles start (m : gmap string ndarray) :
  dom (add_tiles filename start tiles m)
  = dom m ∪ list_to_set (tile_name filename <$> seq start (length tiles)).
Proof.
  revert start m. induction tiles as [|t tiles IH]; intros start m; simpl.
  - by rewrite (right_id_L ∅ (∪)).
  - rewrite IH, dom_insert_L.
    by rewrite (comm_L (∪) {[_]} (dom m)), <- (assoc_L (∪)).
Qed.

(** X15. Saving the tiles of a scene keeps the two directories paired:
    when the images and the labels directory hold the same entry names
    before, and the tiler returned as many label tiles as image tiles, they
    hold the same entry names after, those of before among them. *)
Theorem save_tiles_keeps_pairs (idir ldir filename : string)
    (its lts : list ndarray) (fs : filesystem) (di dl : gmap string ndarray) :
  idir ≠ ldir →
  length its = length lts →
  fs !! idir = Some di →
  fs !! ldir = Some dl →
  dom di = dom dl →
  ∃ fs' di' dl',
    save_tiles idir ldir filename its lts fs = (fs', Ok ()) ∧
    fs' !! idir = Some di' ∧ fs' !! ldir = Some dl' ∧
    dom di' = dom dl' ∧ dom di ⊆ dom di'.
Proof.
  intros Hne Hlen Hdi Hdl Hdom.
  destruct (save_tiles_spec idir ldir filename its lts fs di dl)
    as (fs' & Hrun & Hi & Hl & _); try done.
  eexists fs', _, _. split; [exact Hrun|]. split; [exact Hi|].
  split; [exact Hl|]. rewrite !add_tiles_dom, Hdom, Hlen.
  split; [done|]. apply union_subseteq_l.
Qed.

Lemma save_tiles_keeps_pairs_witness :
  ∃ fs' di' dl',
    save_tiles "d/images" "d/labels" "x" [blank 2 2 1] [blank 1 2 2] ex_tiles
    = (fs', Ok ()) ∧
    fs' !! "d/images" = Some di' ∧ fs' !! "d/labels" = Some dl' ∧
    dom di' = dom dl'.
Proof.
  destruct (save_tiles_keeps_pairs "d/images" "d/labels" "x"
              [blank 2 2 1] [blank 1 2 2] ex_tiles
              {[ "scene_0.npy" := blank 2 2 1 ]}
              {[ "scene_0.npy" := blank 1 2 2 ]})
    as (fs' & di' & dl' & Hrun & Hi & Hl & Hdom & _).
  - discriminate.
  - reflexivity.
  - reflexivity.
  - reflexivity.
  - by rewrite !dom_singleton_L.
  - by exists fs', di', dl'.
Defined.

Lemma for_io_app {A : Type} (f : A → io unit) (l1 l2 : list A) fs :
  for_io f (l1 ++ l2) fs
  = match for_io f l1 fs with
    | (fs1, Ok _) => for_io f l2 fs1
    | (fs1, Raise e) => (fs1, Raise e)
    end.
Proof.
  revert fs. induction l1 as [|a l1 IH]; intros fs; simpl; [done|].
  unfold mbind, io_bind. destruct (f a fs) as [fs1 [[]|e]]; [apply IH|done].
Qed.

Lemma list_getitem_beyond {A : Type} (l : list A) :
  list_getitem l (Z.of_nat (length l)) = Raise IndexError.
Proof.
  unfold list_getitem.
  destruct (Z.ltb_spec (Z.of_nat (length l)) 0) as [?|_]; [lia|].
  destruct (Z.ltb_spec (Z.of_nat (length l)) (Z.of_nat (length l)))
    as [?|_]; [lia|].
  by rewrite andb_false_r.
Qed.

(** X16. The loop that saves the tiles runs over the image tiles and reads
    the label tile of the same index: with fewer label tiles than image
    tiles it raises [IndexError] at the first index without a label, after
    the image tile of that index has been saved, so that the images
    directory is left with one entry that has no label. *)
Theorem save_tiles_short_labels (idir ldir filename : string)
    (its lts : list ndarray) (fs : filesystem) (di dl : gmap string ndarray) :
  idir ≠ ldir →
  (length lts < length its)%nat →
  fs !! idir = Some di →
  fs !! ldir = Some dl →
  dl !! tile_name filename (length lts) = None →
  ∃ fs' di' dl',
    save_tiles idir ldir filename its lts fs = (fs', Raise IndexError) ∧
    fs' !! idir = Some di' ∧ fs' !! ldir = Some dl' ∧
    di' !! tile_name filename (length lts) = its !! length lts ∧
    is_Some (di' !! tile_name filename (length lts)) ∧
    dl' !! tile_name filename (length lts) = None.
Proof.
  intros Hne Hlt Hdi Hdl Hfree. unfold save_tiles.
  replace (length its) with (length lts + S (length its - S (length lts)))%nat
    by lia.
  rewrite seq_app, for_io_app. simpl.
  destruct (save_loop idir ldir filename its lts Hne (length lts) 0%nat
              fs di dl) as (fs1 & -> & Hi & Hl & _); try done; try lia.
  destruct (lookup_lt_is_Some_2 its (length lts) Hlt) as [t Ht].
  unfold mbind at 1, io_bind at 1.
  unfold mbind at 1, io_bind at 1, lift at 1.
  rewrite (list_getitem_nat _ _ _ Ht).
  unfold mbind at 1, io_bind at 1, save at 1. rewrite Hi.
  unfold mbind at 1, io_bind at 1, lift at 1.
  rewrite list_getitem_beyond.
  eexists _, _, _. split; [reflexivity|].
  rewrite lookup_insert_eq, lookup_insert_ne, Hl by done.
  split; [reflexivity|]. split; [reflexivity|].
  rewrite lookup_insert_eq, Ht. split; [done|]. split; [done|].
  rewrite drop_0, firstn_all.
  rewrite add_tiles_other; [done|].
  intros id Hid H%tile_name_inj. lia.
Qed.

Lemma save_tiles_short_labels_witness :
  ∃ fs',
    save_tiles "d/images" "d/labels" "x" [blank 2 2 1; blank 2 2 1]
      [blank 1 2 2] ex_tiles = (fs', Raise IndexError).
Proof.
  destruct (save_tiles_short_labels "d/images" "d/labels" "x"
              [blank 2 2 1; blank 2 2 1] [blank 1 2 2] ex_tiles
              {[ "scene_0.npy" := blank 2 2 1 ]}
              {[ "scene_0.npy" := blank 1 2 2 ]})
    as (fs' & _ & _ & Hrun & _).
  - discriminate.
  - simpl. lia.
  - reflexivity.
  - reflexivity.
  - reflexivity.
  - by exists fs'.
Defined.

(** ** Scenes *)

Section Scenes.

Variable glob : string → list string.
Variable open_rasterio : string → result ndarray.
Variable modify_bands : ndarray → list string → list string → result ndarray.
Variable rng : nat → nat * nat.
Variable standardize_local : array → array.

(** [process_scene] is [scene_tiles] followed by the saving loop. *)
Lemma process_scene_run (self : object) (image label : string)
    (fs : filesystem) :
  process_scene open_rasterio modify_bands rng self image label fs
  = match scene_tiles open_rasterio modify_bands rng self image label with
    | Ok (image_tiles, label_tiles) =>
        (images_dir ← lift (attr_str self "images_dir");
         labels_dir ← lift (attr_str self "labels_dir");
         save_tiles images_dir labels_dir (stem image) image_tiles label_tiles)
          fs
    | Raise e => (fs, Raise e)
    end.
Proof.
  unfold process_scene, scene_tiles.
  destruct (open_rasterio image) as [im|]; [|reflexivity].
  destruct (open_rasterio label) as [lb|]; [|reflexivity].
  destruct (attr_strs self "input_bands") as [ib|]; [|reflexivity].
  destruct (attr_strs self "output_bands") as [ob|]; [|reflexivity].
  unfold mbind, io_bind, result_bind, lift; cbn beta iota.
  destruct (modify_bands im ib ob) as [im'|]; [|reflexivity].
  destruct (arr_astype int16 <$> moveaxis_0_last im') as [im''|];
    [|reflexivity].
  destruct (attr_nat self "tile_size") as [ts|]; [|reflexivity].
  destruct (attr_patches self "max_patches") as [mp|]; [|reflexivity].
  by destruct (gen_random_tiles rng im'' _ ts mp).
Qed.

Lemma scene_tiles_lengths (self : object) (image label : string) its lts :
  scene_tiles open_rasterio modify_bands rng self image label = Ok (its, lts) →
  length its = length lts.
Proof.
  unfold scene_tiles. intros H.
  repeat (unfold mbind at 1, result_bind at 1 in H;
          match type of H with
          | (match ?x with _ => _ end) = _ =>
              destruct x; [cbv beta iota zeta in H|done]
          end).
  match type of H with Ok (gen_random_tiles ?r ?i ?l ?t ?m) = _ =>
    destruct (gen_random_tiles_length r i l t m) as [H1 H2];
    assert (gen_random_tiles r i l t m = (its, lts)) as Heq by congruence;
    rewrite Heq in H1, H2 end.
  simpl in H1, H2. congruence.
Qed.

Lemma add_tiles_overwrite filename (t1 t2 : list ndarray) start m :
  (length t1 ≤ length t2)%nat →
  add_tiles filename start t2 (add_tiles filename start t1 m)
  = add_tiles filename start t2 m.
Proof.
  intros Hle. apply map_eq. intros e.
  destruct (decide (e ∈ (λ id, tile_name filename (start + id))
                         <$> seq 0 (length t2))) as [Hin|Hout].
  - apply list_elem_of_fmap in Hin as (id & -> & Hid).
    apply elem_of_seq in Hid.
    by rewrite !add_tiles_new by lia.
  - assert (∀ id, (id < length t2)%nat → e ≠ tile_name filename (start + id))
      as Hne.
    { intros id Hid ->. apply Hout, list_elem_of_fmap. exists id.
      split; [done|]. apply elem_of_seq. lia. }
    rewrite !add_tiles_other; try done.
    intros id Hid. apply Hne. lia.
Qed.

(** X17. The tile files are named after the stem of the image path alone:
    two scenes of the same stem write to the same names, and when the later
    one yields at least as many tiles, processing both leaves the file
    system exactly as processing the later one alone, nothing of the
    earlier scene being kept. *)
Theorem scenes_of_one_stem_overwrite (self : object)
    (image1 label1 image2 label2 idir ldir : string) (fs : filesystem)
    (di dl : gmap string ndarray) (its1 lts1 its2 lts2 : list ndarray) :
  self !! "images_dir" = Some (VStr idir) →
  self !! "labels_dir" = Some (VStr ldir) →
  idir ≠ ldir →
  fs !! idir = Some di →
  fs !! ldir = Some dl →
  scene_tiles open_rasterio modify_bands rng self image1 label1
  = Ok (its1, lts1) →
  scene_tiles open_rasterio modify_bands rng self image2 label2
  = Ok (its2, lts2) →
  stem image1 = stem image2 →
  (length its1 ≤ length its2)%nat →
  ∃ fs1 fs2,
    process_scene open_rasterio modify_bands rng self image1 label1 fs
    = (fs1, Ok ()) ∧
    process_scene open_rasterio modify_bands rng self image2 label2 fs1
    = (fs2, Ok ()) ∧
    process_scene open_rasterio modify_bands rng self image2 label2 fs
    = (fs2, Ok ()).
Proof.
  intros Hi Hl Hne Hdi Hdl H1 H2 Hstem Hle.
  pose proof (scene_tiles_lengths _ _ _ _ _ H1) as Hlen1.
  pose proof (scene_tiles_lengths _ _ _ _ _ H2) as Hlen2.
  destruct (save_tiles_spec idir ldir (stem image2) its1 lts1 fs di dl)
    as (fs1 & Hrun1 & Hi1 & Hl1 & Ho1); try done.
  destruct (save_tiles_spec idir ldir (stem image2) its2 lts2 fs1 _ _
              Hne Hlen2 Hi1 Hl1)
    as (fs2 & Hrun2 & Hi2 & Hl2 & Ho2).
  destruct (save_tiles_spec idir ldir (stem image2) its2 lts2 fs di dl)
    as (fs3 & Hrun3 & Hi3 & Hl3 & Ho3); try done.
  exists fs1, fs2.
  rewrite !process_scene_run, H1, H2. unfold attr_str. rewrite Hi, Hl.
  unfold mbind, io_bind, lift. cbn beta iota. rewrite Hstem.
  split; [exact Hrun1|]. split; [exact Hrun2|]. rewrite Hrun3. f_equal.
  apply map_eq. intros d.
  destruct (decide (d = idir)) as [->|Hdi'].
  { rewrite Hi2, Hi3. f_equal. symmetry. by apply add_tiles_overwrite. }
  destruct (decide (d = ldir)) as [->|Hdl'].
  { rewrite Hl2, Hl3. f_equal. symmetry. apply add_tiles_overwrite. lia. }
  by rewrite Ho3, Ho2, Ho1.
Qed.

(** X18. [gen_dataset] has no handler around a scene: when the scene at
    position [i] of the pairing cannot be opened or prepared, the error is
    the result of [gen_dataset], the tiles of the scenes before it stay
    written, and nothing is written for that scene or for a later one. *)
Theorem gen_dataset_stops_at_failure (self : object) (ir lr : string)
    (fs fs1 : filesystem) (i : nat) (image label : string) (e : exn) :
  self !! "images_regex" = Some (VStr ir) →
  self !! "labels_regex" = Some (VStr lr) →
  pair_files (glob ir) (glob lr) !! i = Some (image, label) →
  for_io (λ '(image, label),
            process_scene open_rasterio modify_bands rng self image label)
    (take i (pair_files (glob ir) (glob lr))) fs = (fs1, Ok ()) →
  scene_tiles open_rasterio modify_bands rng self image label = Raise e →
  gen_dataset glob open_rasterio modify_bands rng self fs = (fs1, Raise e).
Proof.
  intros Hir Hlr Hi Hbefore Hfail.
  unfold gen_dataset, attr_str. rewrite Hir, Hlr.
  unfold mbind at 1, io_bind at 1, lift at 1.
  unfold mbind at 1, io_bind at 1, lift at 1.
  fold (pair_files (glob ir) (glob lr)).
  rewrite <- (take_drop_middle _ _ _ Hi), for_io_app.
  rewrite Hbefore. simpl. unfold mbind at 1, io_bind at 1.
  by rewrite process_scene_run, Hfail.
Qed.

(** ** Construction *)




(** ** Reading tiles *)

Lemma load_reads_only (path : string) (fs : filesystem) :
  (load path fs).1 = fs.
Proof. unfold load. by case_match. Qed.

(** X21. The body of [__getitem__] past the read of [self.files]: on an
    object on which that attribute holds the manifest, with the two tile
    files of the record in place, an image tile of shape (h, w, c), no
    standardization and no transform, the call returns a float tensor and a
    long tensor; the image is channel-first (c, h, w) when [invert] is set
    and as stored otherwise, the label has the shape it was stored with, and
    nothing is written. *)
Theorem getitem_with_files (self : object) (records : list (gmap string string))
    (idx : Z) (record : gmap string string) (image_path label_path : string)
    (image label : ndarray) (fs : filesystem) (h w c : nat)
    (invert normalize : bool) :
  self !! "files" = Some (VRecords records) →
  list_getitem records idx = Ok record →
  record !! "image" = Some image_path →
  record !! "label" = Some label_path →
  (load image_path fs).2 = Ok image →
  (load label_path fs).2 = Ok label →
  shape image = [h; w; c] →
  length (flat image) = (h * w * c)%nat →
  self !! "invert" = Some (VBool invert) →
  self !! "normalize" = Some (VBool normalize) →
  self !! "standardize" = Some (VBool false) →
  self !! "transform" = Some (VBool false) →
  ∃ x y,
    __getitem__ standardize_local self idx fs = (fs, Ok (x, y)) ∧
    kind x = FloatTensor ∧
    tshape x = (if invert then [c; h; w] else [h; w; c]) ∧
    length (tdata x) = length (flat image) ∧
    kind y = LongTensor ∧
    tshape y = shape label ∧
    length (tdata y) = length (flat label).
Proof.
  intros Hfiles Hrec Hip Hlp Hli Hll Hsh Hlen Hinv Hnrm Hstd Htr.
  pose proof (load_reads_only image_path fs) as Hfi.
  pose proof (load_reads_only label_path fs) as Hfl.
  destruct (load image_path fs) as [fsi ri] eqn:Hloadi.
  destruct (load label_path fs) as [fsl rl] eqn:Hloadl.
  simpl in *. subst fsi fsl ri rl.
  unfold __getitem__, open_image, open_mask, attr_records, attr_bool, getitem.
  rewrite Hfiles, Hinv, Hnrm, Hstd, Htr.
  unfold mbind, io_bind, lift, mret, io_ret. cbn beta iota.
  rewrite Hrec. cbn beta iota. rewrite Hip, Hlp. cbn beta iota.
  rewrite Hloadi.
  assert (∃ image',
            (if invert then transpose_201 image else Ok image) = Ok image' ∧
            shape image' = (if invert then [c; h; w] else [h; w; c]) ∧
            length (flat image') = length (flat image) ∧
            adtype image' = adtype image) as (image' & -> & Hsh' & Hlen' & _).
  { destruct invert; [|by exists image].
    unfold transpose_201. rewrite Hsh. eexists. split; [reflexivity|].
    simpl. split; [done|]. split; [|done].
    destruct (transpose_flat_spec (h * w) c (flat image) Hlen) as [-> _].
    lia. }
  rewrite Hloadl. eexists _, _. split; [reflexivity|].
  unfold to_long_tensor; simpl. rewrite length_fmap.
  destruct normalize; simpl; rewrite ?length_fmap; by rewrite Hsh', Hlen'.
Qed.

(** X22. The normalization of [open_image] divides by the largest value
    of the element type: every element of the result is at most 1, and at
    least the quotient of the smallest value of the type by the largest,
    which is 0 for an unsigned type and lies below -1 for a signed one. *)
Theorem normalize_range (a : ndarray) :
  Forall (fits (adtype a)) (flat a) →
  ∃ data,
    div_iinfo_max a = FloatArray (shape a) data ∧
    length data = length (flat a) ∧
    Forall (λ q, (inject_Z (iinfo_min (adtype a))
                  / inject_Z (iinfo_max (adtype a)) <= q ∧ q <= 1)%Q) data ∧
    (signed (adtype a) = false → Forall (λ q, (0 <= q)%Q) data) ∧
    (signed (adtype a) = true →
     (inject_Z (iinfo_min (adtype a)) / inject_Z (iinfo_max (adtype a))
      < -1)%Q).
Proof.
  intros Hfits. eexists. split; [reflexivity|].
  split; [by rewrite length_fmap|].
  assert (0 < inject_Z (iinfo_max (adtype a)))%Q as Hmax.
  { by destruct (adtype a). }
  assert (Forall (λ q, (inject_Z (iinfo_min (adtype a))
                        / inject_Z (iinfo_max (adtype a)) <= q ∧ q <= 1)%Q)
            ((λ v, (inject_Z v / inject_Z (iinfo_max (adtype a)))%Q)
               <$> flat a)) as Hrange.
  { apply Forall_fmap. eapply Forall_impl; [exact Hfits|].
    intros v [Hlo Hhi]. simpl. split.
    - apply Qmult_le_compat_r; [by rewrite <- Zle_Qle|].
      apply Qinv_le_0_compat. by apply Qlt_le_weak.
    - apply Qle_shift_div_r; [exact Hmax|].
      rewrite Qmult_1_l. by rewrite <- Zle_Qle. }
  split; [exact Hrange|]. split.
  - intros Hu. eapply Forall_impl; [exact Hrange|].
    intros q [Hlo _]. simpl in Hlo.
    eapply Qle_trans; [|exact Hlo].
    unfold iinfo_min. rewrite Hu. by destruct (adtype a).
  - intros Hs. by destruct (adtype a).
Qed.

End Scenes.



Lemma getitem_with_files_witness :
  ∃ x y,
    __getitem__ ex_standardize
      {[ "files" := VRecords [ {[ "image" := "d/images/scene_0.npy";
                                  "label" := "d/labels/scene_0.npy" ]} ];
         "invert" := VBool true; "normalize" := VBool false;
         "standardize" := VBool false; "transform" := VBool false ]}
      (-1) ex_tiles
    = (ex_tiles, Ok (x, y)) ∧
    tshape x = [1; 2; 2]%nat ∧ tshape y = [1; 2; 2]%nat.
Proof.
  destruct (getitem_with_files ex_standardize
              {[ "files" := VRecords [ {[ "image" := "d/images/scene_0.npy";
                                          "label" := "d/labels/scene_0.npy" ]} ];
                 "invert" := VBool true; "normalize" := VBool false;
                 "standardize" := VBool false; "transform" := VBool false ]}
              [ {[ "image" := "d/images/scene_0.npy";
                   "label" := "d/labels/scene_0.npy" ]} ]
              (-1)
              {[ "image" := "d/images/scene_0.npy";
                 "label" := "d/labels/scene_0.npy" ]}
              "d/images/scene_0.npy" "d/labels/scene_0.npy"
              (blank 2 2 1) (blank 1 2 2) ex_tiles 2 2 1 true false)
    as (x & y & Hrun & _ & Hx & _ & _ & Hy & _).
  - reflexivity.
  - reflexivity.
  - reflexivity.
  - reflexivity.
  - vm_compute. reflexivity.
  - vm_compute. reflexivity.
  - reflexivity.
  - reflexivity.
  - reflexivity.
  - reflexivity.
  - reflexivity.
  - reflexivity.
  - exists x, y. split; [exact Hrun|]. split; [exact Hx|exact Hy].
Defined.

Lemma normalize_range_witness :
  ∃ data,
    div_iinfo_max {| adtype := uint8; shape := [3]%nat; flat := [0; 51; 255] |}
    = FloatArray [3]%nat data ∧
    Forall (λ q, (0 <= q)%Q) data.
Proof.
  destruct (normalize_range
              {| adtype := uint8; shape := [3]%nat; flat := [0; 51; 255] |})
    as (data & Hdiv & _ & _ & Hpos & _).
  - repeat constructor; discriminate.
  - exists data. split; [exact Hdiv|]. apply Hpos. reflexivity.
Defined.

Lemma scenes_of_one_stem_overwrite_witness :
  ∃ fs1 fs2,
    process_scene ex_open ex_modify_bands ex_rng (ex_self 2 (Count 5))
      "a/scene.tif" "a/scene.tif" ex_tiles = (fs1, Ok ()) ∧
    process_scene ex_open ex_modify_bands ex_rng (ex_self 2 (Count 5))
      "b/scene.tif" "b/scene.tif" fs1 = (fs2, Ok ()) ∧
    process_scene ex_open ex_modify_bands ex_rng (ex_self 2 (Count 5))
      "b/scene.tif" "b/scene.tif" ex_tiles = (fs2, Ok ()).
Proof.
  destruct (scene_tiles ex_open ex_modify_bands ex_rng (ex_self 2 (Count 5))
              "a/scene.tif" "a/scene.tif") as [[its lts]|e] eqn:H1;
    [|vm_compute in H1; discriminate].
  apply (scenes_of_one_stem_overwrite ex_open ex_modify_bands ex_rng
           (ex_self 2 (Count 5)) "a/scene.tif" "a/scene.tif"
           "b/scene.tif" "b/scene.tif" "d/images" "d/labels" ex_tiles
           {[ "scene_0.npy" := blank 2 2 1 ]}
           {[ "scene_0.npy" := blank 1 2 2 ]} its lts its lts).
  - reflexivity.
  - reflexivity.
  - discriminate.
  - reflexivity.
  - reflexivity.
  - exact H1.
  - exact H1.
  - reflexivity.
  - lia.
Defined.

Lemma gen_dataset_stops_at_failure_witness :
  ∃ fs1,
    gen_dataset ex_glob
      (λ path, if decide (path = "img/b.tif")
               then Raise (FileNotFoundError path) else Ok (blank 1 3 4))
      ex_modify_bands ex_rng
      (<["images_regex" := VStr "img/*.tif"]>
         (<["labels_regex" := VStr "lbl/*.tif"]> (ex_self 2 (Count 5))))
      {[ "d/images" := ∅; "d/labels" := ∅ ]}
    = (fs1, Raise (FileNotFoundError "img/b.tif")) ∧
    size <$> fs1 !! "d/images" = Some 5%nat.
Proof.
  set (open := λ path : string,
         if decide (path = "img/b.tif")
         then Raise (FileNotFoundError path) else Ok (blank 1 3 4)).
  set (self := <["images_regex" := VStr "img/*.tif"]>
                 (<["labels_regex" := VStr "lbl/*.tif"]>
                    (ex_self 2 (Count 5)))).
  set (run := for_io (λ '(image, label),
                process_scene open ex_modify_bands ex_rng self image label)
              (take 1 (pair_files (ex_glob "img/*.tif") (ex_glob "lbl/*.tif")))
              {[ "d/images" := ∅; "d/labels" := ∅ ]}).
  assert (run.2 = Ok () ∧ size <$> run.1 !! "d/images" = Some 5%nat)
    as [Hok Hsize].
  { vm_compute. split; reflexivity. }
  exists run.1. split; [|exact Hsize].
  apply (gen_dataset_stops_at_failure ex_glob open ex_modify_bands ex_rng self
           "img/*.tif" "lbl/*.tif" _ run.1 1 "img/b.tif" "lbl/c.tif").
  - reflexivity.
  - reflexivity.
  - vm_compute. reflexivity.
  - rewrite <- Hok. apply surjective_pairing.
  - reflexivity.
Defined.

End TerragpuMore.
